(** * The chat-turn handlers of [service/src/index.ts]

    A shallow embedding of the Express handlers that make up the chat-turn
    orchestrator: [/chat-history], [/chat-response-history], [/chat-process]
    and [/chat-abort].  Handlers run in a state-and-exception monad over the
    conversation store, the response object and the handler's locals; the
    answers of the collaborators the handlers await (configuration, user
    lookup, audit predicate, credential pool, completion backend) are read
    from an environment record.

    Further sections embed the handlers around them: [/room-delete],
    [/chat-delete] and [/chat-clear], [/session], and the account handlers
    from [/user-register] to [/verifyadmin], whose collaborators are
    answers taken from a record of dependencies. *)

From stdpp Require Import base option list strings gmap pretty.
From Stdlib Require Import ZArith Lia Ascii.

Local Open Scope string_scope.
Local Open Scope list_scope.

(** ** Data model (storage/model.ts, as index.ts uses it) *)

Definition ObjectId := nat.

Inductive Status :=
| Normal | Deleted | InversionDeleted | ResponseDeleted
| PreVerify | AdminVerify | Disabled.

Inductive UserRole := Admin | User | Guest.

#[global] Instance Status_eq_dec : EqDecision Status.
Proof. solve_decision. Defined.
#[global] Instance UserRole_eq_dec : EqDecision UserRole.
Proof. solve_decision. Defined.

Record UsageResponse := mkUsage {
  u_prompt_tokens : Z;
  u_completion_tokens : Z;
  u_total_tokens : Z;
  u_estimated : bool
}.

(** Every field of the stored options is optional in the source. *)
Record ChatOptions := mkOptions {
  parentMessageId : option string;
  messageId : option string;
  conversationId : option string;
  prompt_tokens : option Z;
  completion_tokens : option Z;
  total_tokens : option Z;
  estimated : option bool
}.

(** One element of [previousResponse]. *)
Record PreviousResponse := mkPrevious {
  p_response : option string;
  p_options : ChatOptions
}.

Record ChatInfo := mkChat {
  c_id : ObjectId;
  c_roomId : Z;
  c_uuid : Z;
  c_dateTime : Z;
  c_prompt : string;
  c_response : option string;
  c_status : Status;
  c_options : ChatOptions;
  c_previousResponse : option (list PreviousResponse)
}.

Record ChatRoom := mkRoom {
  r_roomId : Z;
  r_userId : string;
  r_title : string;
  r_prompt : option string;
  r_usingContext : option bool;
  r_status : Status
}.

Record ChatUsage := mkChatUsage {
  cu_userId : string;
  cu_roomId : Z;
  cu_chatId : ObjectId;
  cu_messageId : option string;
  cu_usage : UsageResponse
}.

Record AuditConfig := mkAudit { enabled : bool; customizeEnabled : bool }.
Record Config := mkConfig { auditConfig : AuditConfig }.
Record UserInfo := mkUser { roles : list UserRole; chatModel : string }.
Record KeyConfig := mkKey { key : string }.

(** The chatgpt library's [ChatMessage]: a partial event or a final result. *)
Record Choice := mkChoice { finish_reason : option string }.
Record Detail := mkDetail { usage : option UsageResponse; choices : list Choice }.
Record ChatMessage := mkMessage {
  m_id : option string;
  m_conversationId : option string;
  m_text : option string;
  m_detail : option Detail
}.

(** What [chatReplyProcess] resolves with: [{ status, message, data }]. *)
Record ChatResponse := mkResponse {
  status : string;
  message : option string;
  data : option ChatMessage   (* [None] is JavaScript's [null] *)
}.

Record RequestProps := mkRequest {
  roomId : Z;
  uuid : Z;
  regenerate : bool;
  prompt : string;
  options : ChatOptions;
  systemMessage : option string;
  temperature : option Z;
  top_p : option Z
}.

(** The argument object handed to [chatReplyProcess]. *)
Record RequestOptions := mkReqOptions {
  ro_message : string;
  ro_lastContext : ChatOptions;
  ro_systemMessage : option string;
  ro_temperature : option Z;
  ro_top_p : option Z;
  ro_chatModel : string;
  ro_key : option KeyConfig;
  ro_userId : string;
  ro_messageId : ObjectId
}.

(** ** JavaScript values the handlers test *)

(** Truthiness of an optional string, number and object. *)
Definition truthy_string (v : option string) : bool :=
  match v with Some s => negb (String.eqb s "") | None => false end.

Definition truthy_number (v : option Z) : bool :=
  match v with Some n => negb (Z.eqb n 0) | None => false end.

Definition truthy_bool (v : option bool) : bool :=
  match v with Some b => b | None => false end.

(** [x || null] on an optional number or boolean. *)
Definition or_null_number (v : option Z) : option Z :=
  if truthy_number v then v else None.

Definition or_null_bool (v : option bool) : option bool :=
  if truthy_bool v then v else None.

(** Modelled from the spec: [isNotEmptyString] of utils/is, which is not in
    the sources; the room's system prompt is "optional", and the override
    applies to a stored prompt that is a non-empty string. *)
Definition isNotEmptyString (v : option string) : bool := truthy_string v.

(** [result.data] after the finally block normalised [result]. *)
Inductive JsData := Undefined | Null | Obj (m : ChatMessage).

Inductive JsError := Error (message : option string).

Definition error_message (e : JsError) : option string :=
  match e with Error m => m end.

Definition TypeError (what : string) : JsError :=
  Error (Some (String.append "Cannot read properties of " what)).

(** ** The response object *)

Record Chuck := mkChuck {
  ck_id : option string;
  ck_conversationId : option string;
  ck_text : option string;
  ck_finish_reason : option string
}.

(** What reaches the client, one constructor per write site. *)
Inductive Chunk :=
| ChunkPartial (first : bool) (c : Chuck)   (* JSON of a relayed event *)
| ChunkData (d : option ChatMessage)        (* newline + JSON of result.data *)
| ChunkError (message : option string)      (* JSON of { message } *)
| ChunkSend (st : string) (msg : string).   (* res.send({status, message, data: null}) *)

(** ** Collaborators *)

Inductive Outcome (A : Type) := Returns (a : A) | Throws (e : JsError).
Arguments Returns {A} a.
Arguments Throws {A} e.

Inductive StoreOp :=
| OpGetChatRoom | OpGetChat | OpInsertChat | OpUpdateChat | OpInsertChatUsage.

(** Answers of the awaited collaborators for one request. *)
Record Env := mkEnv {
  env_now : Z;
  env_config : Outcome Config;                  (* getCacheConfig() *)
  env_user : Outcome (option UserInfo);         (* getUserById(userId) *)
  env_audit : Outcome bool;                     (* containsSensitiveWords(..) *)
  env_key : Outcome (option KeyConfig);         (* getRandomApiKey(..) *)
  env_events : list ChatMessage;                (* events given to process *)
  env_reply : Outcome ChatResponse;             (* how chatReplyProcess settles *)
  env_fault : StoreOp -> option JsError;        (* a store call that rejects *)
  env_objectId : string -> option JsError       (* what new ObjectId(..) throws *)
}.

Inductive Effect :=
| CallGetChatRoom (userId : string) (room : Z)
| CallGetCacheConfig
| CallGetUserById (userId : string)
| CallContainsSensitiveWords (text : string)
| CallGetChat (room id : Z)
| CallInsertChat (id : Z) (text : string) (room : Z)
| CallGetRandomApiKey (model : string)
| CallChatReplyProcess (o : RequestOptions)
| CallUpdateChat (chatId : option ObjectId) (text id conv : option string)
                 (u : option UsageResponse) (prev : option (list PreviousResponse))
| CallInsertChatUsage (userId : string) (room : Z) (chatId : ObjectId)
                      (id : option string) (u : UsageResponse)
| CallAbortChatProcess (userId : string).

(** ** Handler state *)

(** An entry of the cancellation registry: the in-flight turn of a user and
    whether it was told to stop. *)
Record Handle := mkHandle { t_messageId : ObjectId; t_cancelled : bool }.

Definition cancel (h : Handle) : Handle := mkHandle (t_messageId h) true.

(** The [result] variable holds what chatReplyProcess resolved with, and
    later the bare [{ data: lastResponse }]. *)
Record Result := mkResult {
  res_status : option string;
  res_message : option string;
  res_data : JsData
}.

Record Locals := mkLocals {
  v_systemMessage : option string;
  v_lastResponse : option ChatMessage;
  v_result : option Result;        (* [None]: undefined *)
  v_message : option ChatInfo;     (* [None]: undefined or null *)
  v_firstChunk : bool
}.

Record State := mkState {
  rooms : list ChatRoom;
  chats : list ChatInfo;
  usages : list ChatUsage;
  threads : gmap string Handle;
  body : list Chunk;
  ended : bool;
  console : list (option string);
  trace : list Effect;
  vars : Locals
}.

Definition set_chats (f : list ChatInfo -> list ChatInfo) (s : State) : State :=
  mkState (rooms s) (f (chats s)) (usages s) (threads s) (body s) (ended s)
          (console s) (trace s) (vars s).
Definition set_usages (f : list ChatUsage -> list ChatUsage) (s : State) : State :=
  mkState (rooms s) (chats s) (f (usages s)) (threads s) (body s) (ended s)
          (console s) (trace s) (vars s).
Definition set_threads (f : gmap string Handle -> gmap string Handle) (s : State) : State :=
  mkState (rooms s) (chats s) (usages s) (f (threads s)) (body s) (ended s)
          (console s) (trace s) (vars s).
Definition set_body (f : list Chunk -> list Chunk) (s : State) : State :=
  mkState (rooms s) (chats s) (usages s) (threads s) (f (body s)) (ended s)
          (console s) (trace s) (vars s).
Definition set_ended (b : bool) (s : State) : State :=
  mkState (rooms s) (chats s) (usages s) (threads s) (body s) b
          (console s) (trace s) (vars s).
Definition set_console (f : list (option string) -> list (option string)) (s : State) : State :=
  mkState (rooms s) (chats s) (usages s) (threads s) (body s) (ended s)
          (f (console s)) (trace s) (vars s).
Definition set_trace (f : list Effect -> list Effect) (s : State) : State :=
  mkState (rooms s) (chats s) (usages s) (threads s) (body s) (ended s)
          (console s) (f (trace s)) (vars s).
Definition set_vars (f : Locals -> Locals) (s : State) : State :=
  mkState (rooms s) (chats s) (usages s) (threads s) (body s) (ended s)
          (console s) (trace s) (f (vars s)).

Definition with_systemMessage (x : option string) (v : Locals) : Locals :=
  mkLocals x (v_lastResponse v) (v_result v) (v_message v) (v_firstChunk v).
Definition with_lastResponse (x : option ChatMessage) (v : Locals) : Locals :=
  mkLocals (v_systemMessage v) x (v_result v) (v_message v) (v_firstChunk v).
Definition with_result (x : option Result) (v : Locals) : Locals :=
  mkLocals (v_systemMessage v) (v_lastResponse v) x (v_message v) (v_firstChunk v).
Definition with_message (x : option ChatInfo) (v : Locals) : Locals :=
  mkLocals (v_systemMessage v) (v_lastResponse v) (v_result v) x (v_firstChunk v).
Definition with_firstChunk (x : bool) (v : Locals) : Locals :=
  mkLocals (v_systemMessage v) (v_lastResponse v) (v_result v) (v_message v) x.

(** ** The handler monad: state, exceptions and [return] *)

Inductive Completion (A : Type) :=
| Val (a : A)
| Thrown (e : JsError)
| Return.
Arguments Val {A} a.
Arguments Thrown {A} e.
Arguments Return {A}.

Definition M (A : Type) : Type := State -> Completion A * State.

Definition ret {A} (a : A) : M A := fun s => (Val a, s).

Definition bind {A B} (m : M A) (k : A -> M B) : M B :=
  fun s =>
    match m s with
    | (Val a, s') => k a s'
    | (Thrown e, s') => (Thrown e, s')
    | (Return, s') => (Return, s')
    end.

Notation "x <- m ;; k" := (bind m (fun x => k))
  (at level 100, m at next level, right associativity).
Notation "m ;;; k" := (bind m (fun _ => k))
  (at level 100, right associativity).

Definition throw {A} (e : JsError) : M A := fun s => (Thrown e, s).
Definition early_return {A} : M A := fun s => (Return, s).
Definition gets {A} (f : State -> A) : M A := fun s => (Val (f s), s).
Definition modify (f : State -> State) : M unit := fun s => (Val tt, f s).

(** [try { m } catch (error) { h error }]: a [return] is not caught. *)
Definition try_catch {A} (m : M A) (h : JsError -> M A) : M A :=
  fun s =>
    match m s with
    | (Thrown e, s') => h e s'
    | r => r
    end.

(** [try { m } finally { f }]: an abrupt completion of [f] replaces that
    of [m]. *)
Definition try_finally (m : M unit) (f : M unit) : M unit :=
  fun s =>
    match m s with
    | (c, s') =>
        match f s' with
        | (Val _, s'') => (c, s'')
        | r => r
        end
    end.

Definition log (ev : Effect) : M unit :=
  modify (set_trace (fun t => t ++ [ev])).

Definition settle {A} (o : Outcome A) : M A :=
  match o with Returns a => ret a | Throws e => throw e end.

Definition fault (e : Env) (op : StoreOp) : M unit :=
  match env_fault e op with Some err => throw err | None => ret tt end.

Definition deref {A} (what : string) (v : option A) : M A :=
  match v with Some a => ret a | None => throw (TypeError what) end.

(** [new ObjectId(s)]: the constructor of the mongodb driver, which is not
    in the sources, throws for a string it cannot make an id of; the row
    written with the id names it by the string it was made of. *)
Definition newObjectId (e : Env) (s : string) : M unit :=
  match env_objectId e s with Some err => throw err | None => ret tt end.

Definition res_write (c : Chunk) : M unit := modify (set_body (fun b => b ++ [c])).
Definition res_end : M unit := modify (set_ended true).
Definition res_send (st msg : string) : M unit :=
  modify (fun s => set_ended true (set_body (fun b => b ++ [ChunkSend st msg]) s)).
Definition console_log (line : option string) : M unit :=
  modify (set_console (fun c => c ++ [line])).

(** ** The conversation store (storage/mongo.ts) *)

Definition room_matches (userId : string) (roomId : Z) (r : ChatRoom) : bool :=
  bool_decide (r_userId r = userId) && bool_decide (r_roomId r = roomId).

Definition chat_matches (roomId uuid : Z) (c : ChatInfo) : bool :=
  bool_decide (c_roomId c = roomId) && bool_decide (c_uuid c = uuid).

(** Modelled from the spec: [getRoom(userId, roomId) -> Room | absent] of the
    store, which is not in the sources; a room is found when it exists and
    belongs to the requesting user. *)
Definition find_room (userId : string) (roomId : Z) (rs : list ChatRoom) : option ChatRoom :=
  List.find (room_matches userId roomId) rs.

(** Modelled from the spec: [getTurn(roomId, seq) -> Turn | absent]; a turn is
    identified by its room and its caller-supplied sequence id. *)
Definition find_chat (roomId uuid : Z) (cs : list ChatInfo) : option ChatInfo :=
  List.find (chat_matches roomId uuid) cs.

Definition fresh_id (cs : list ChatInfo) : ObjectId :=
  S (foldr Nat.max 0%nat (map c_id cs)).

(** Modelled from the spec: [createTurn(seq, prompt, roomId, options) -> Turn];
    the new row holds the prompt and the call options, no response and no
    branch list, and is active. *)
Definition new_chat (id : ObjectId) (now uuid : Z) (prompt : string) (roomId : Z)
    (options : ChatOptions) : ChatInfo :=
  mkChat id roomId uuid now prompt None Normal options None.

Definition usage_options (o : ChatOptions) (id conv : option string)
    (u : option UsageResponse) : ChatOptions :=
  mkOptions (parentMessageId o) id conv
            (u_prompt_tokens <$> u) (u_completion_tokens <$> u)
            (u_total_tokens <$> u) (u_estimated <$> u).

Definition update_row (text id conv : option string) (u : option UsageResponse)
    (prev : option (list PreviousResponse)) (c : ChatInfo) : ChatInfo :=
  mkChat (c_id c) (c_roomId c) (c_uuid c) (c_dateTime c) (c_prompt c)
         text (c_status c) (usage_options (c_options c) id conv u)
         (match prev with Some p => Some p | None => c_previousResponse c end).

(** Modelled from the spec: [updateTurn(turnId, text, backendMessageId,
    backendConversationId, usage, branches?) -> void]; the row with that id
    gets the response text, the two backend ids and the usage counters, and
    the branch list when one is passed.  An id that names no row (the abort
    endpoint passes an absent id when nothing was in flight) matches nothing. *)
Definition update_chat (chatId : option ObjectId) (text id conv : option string)
    (u : option UsageResponse) (prev : option (list PreviousResponse))
    (cs : list ChatInfo) : list ChatInfo :=
  (fun c => if bool_decide (Some (c_id c) = chatId)
            then update_row text id conv u prev c else c) <$> cs.

Definition getChatRoom (e : Env) (userId : string) (roomId : Z) : M (option ChatRoom) :=
  log (CallGetChatRoom userId roomId) ;;;
  fault e OpGetChatRoom ;;;
  gets (fun s => find_room userId roomId (rooms s)).

Definition existsChatRoom (e : Env) (userId : string) (roomId : Z) : M bool :=
  fault e OpGetChatRoom ;;;
  gets (fun s => bool_decide (is_Some (find_room userId roomId (rooms s)))).

Definition getChat (e : Env) (roomId uuid : Z) : M (option ChatInfo) :=
  log (CallGetChat roomId uuid) ;;;
  fault e OpGetChat ;;;
  gets (fun s => find_chat roomId uuid (chats s)).

Definition insertChat (e : Env) (uuid : Z) (prompt : string) (roomId : Z)
    (options : ChatOptions) : M (option ChatInfo) :=
  log (CallInsertChat uuid prompt roomId) ;;;
  fault e OpInsertChat ;;;
  id <- gets (fun s => fresh_id (chats s)) ;;
  let c := new_chat id (env_now e) uuid prompt roomId options in
  modify (set_chats (fun cs => cs ++ [c])) ;;;
  ret (Some c).

Definition updateChat (e : Env) (chatId : option ObjectId) (text id conv : option string)
    (u : option UsageResponse) (prev : option (list PreviousResponse)) : M unit :=
  log (CallUpdateChat chatId text id conv u prev) ;;;
  fault e OpUpdateChat ;;;
  modify (set_chats (update_chat chatId text id conv u prev)).

(** Modelled from the spec: [insertUsage(userId, roomId, turnId,
    backendMessageId, usage) -> void]; usage rows are append-only. *)
Definition insertChatUsage (e : Env) (userId : string) (roomId : Z) (chatId : ObjectId)
    (id : option string) (u : UsageResponse) : M unit :=
  log (CallInsertChatUsage userId roomId chatId id u) ;;;
  fault e OpInsertChatUsage ;;;
  modify (set_usages (fun us => us ++ [mkChatUsage userId roomId chatId id u])).

(** ** The other collaborators of [/chat-process] (chatgpt.ts, storage/config.ts) *)

Definition getCacheConfig (e : Env) : M Config :=
  log CallGetCacheConfig ;;; settle (env_config e).

Definition getUserById (e : Env) (userId : string) : M (option UserInfo) :=
  log (CallGetUserById userId) ;;; settle (env_user e).

Definition containsSensitiveWords (e : Env) (a : AuditConfig) (text : string) : M bool :=
  log (CallContainsSensitiveWords text) ;;; settle (env_audit e).

Definition getRandomApiKey (e : Env) (u : UserInfo) (model : string) : M (option KeyConfig) :=
  log (CallGetRandomApiKey model) ;;; settle (env_key e).

Fixpoint forEach {A} (f : A -> M unit) (l : list A) : M unit :=
  match l with
  | [] => ret tt
  | x :: l' => f x ;;; forEach f l'
  end.

(** Modelled from the spec: [streamCompletion(..) -> lazy sequence of
    PartialEvent, terminated by FinalResult | AdapterError]; chatReplyProcess
    of chatgpt.ts is not in the sources.  It hands every partial event to the
    [process] callback in order, then settles.  The registry entry of the
    turn lives inside the call and is not modelled here. *)
Definition chatReplyProcess (e : Env) (o : RequestOptions)
    (process : ChatMessage -> M unit) : M ChatResponse :=
  log (CallChatReplyProcess o) ;;;
  forEach process (env_events e) ;;;
  settle (env_reply e).

(** Modelled from the spec: [signal(userId) -> priorMessageId|absent] of the
    cancellation registry; abortChatProcess of chatgpt.ts is not in the
    sources.  It marks the handle registered for the user, if any, as
    cancelled and returns the turn that handle belongs to. *)
Definition abortChatProcess (userId : string) : M (option ObjectId) :=
  log (CallAbortChatProcess userId) ;;;
  h <- gets (fun s => threads s !! userId) ;;
  modify (set_threads (alter cancel userId)) ;;;
  ret (t_messageId <$> h).

(** ** POST /chat-process *)

Definition sensitive_words : string := "含有敏感词 | Contains sensitive words".

(** The [process] callback: remember the event and relay it. *)
Definition process (chat : ChatMessage) : M unit :=
  modify (set_vars (with_lastResponse (Some chat))) ;;;
  let reason :=
    match m_detail chat with
    | Some d => match choices d with
                | c :: _ => finish_reason c
                | [] => None
                end
    | None => None
    end in
  let chuck := mkChuck (m_id chat) (m_conversationId chat) (m_text chat) reason in
  firstChunk <- gets (fun s => v_firstChunk (vars s)) ;;
  res_write (ChunkPartial firstChunk chuck) ;;;
  modify (set_vars (with_firstChunk false)).

Definition includes (r : UserRole) (l : list UserRole) : bool :=
  bool_decide (r ∈ l).

Definition of_response (r : ChatResponse) : Result :=
  mkResult (Some (status r)) (message r)
           (match data r with Some d => Obj d | None => Null end).

(** The body of the [try] block. *)
Definition try_block (e : Env) (req : RequestProps) (userId : string) : M unit :=
  config <- getCacheConfig e ;;
  user <- getUserById e userId ;;
  (if enabled (auditConfig config) || customizeEnabled (auditConfig config) then
     u <- deref "null (reading 'roles')" user ;;
     if negb (includes Admin (roles u)) then
       hit <- containsSensitiveWords e (auditConfig config) (prompt req) ;;
       if hit : bool then res_send "Fail" sensitive_words ;;; early_return
       else ret tt
     else ret tt
   else ret tt) ;;;
  message <- (if regenerate req
              then getChat e (roomId req) (uuid req)
              else insertChat e (uuid req) (prompt req) (roomId req) (options req)) ;;
  modify (set_vars (with_message message)) ;;;
  modify (set_vars (with_firstChunk true)) ;;;
  systemMessage <- gets (fun s => v_systemMessage (vars s)) ;;
  u <- deref "null (reading 'config')" user ;;
  key <- getRandomApiKey e u (chatModel u) ;;
  m <- deref "null (reading '_id')" message ;;
  result <- chatReplyProcess e
              (mkReqOptions (prompt req) (options req) systemMessage
                            (temperature req) (top_p req) (chatModel u) key
                            userId (c_id m))
              process ;;
  modify (set_vars (with_result (Some (of_response result)))) ;;;
  res_write (ChunkData (data result)).

Definition detail_usage (m : ChatMessage) : option UsageResponse :=
  match m_detail m with Some d => usage d | None => None end.

(** [result == null || result === undefined || result.status !== 'Success'] *)
Definition not_success (result : option Result) : bool :=
  match result with
  | Some r => negb (bool_decide (res_status r = Some "Success"))
  | None => true
  end.

Definition data_of (lastResponse : option ChatMessage) : JsData :=
  match lastResponse with Some m => Obj m | None => Undefined end.

Definition deref_data (what : string) (d : JsData) : M ChatMessage :=
  match d with
  | Obj m => ret m
  | Null => throw (TypeError (String.append "null (reading '" (String.append what "')")))
  | Undefined => throw (TypeError (String.append "undefined (reading '" (String.append what "')")))
  end.

(** The inner [try] of the [finally] block. *)
Definition reconcile (e : Env) (req : RequestProps) (userId : string) : M unit :=
  result <- gets (fun s => v_result (vars s)) ;;
  (if not_success result then
     (match result with
      | Some r =>
          modify (set_vars (with_lastResponse
                              (Some (mkMessage None None (res_message r) None))))
      | None => ret tt
      end) ;;;
     lastResponse <- gets (fun s => v_lastResponse (vars s)) ;;
     modify (set_vars (with_result (Some (mkResult None None (data_of lastResponse)))))
   else ret tt) ;;;
  result <- gets (fun s => v_result (vars s)) ;;
  r <- deref "undefined (reading 'data')" result ;;
  (match res_data r with Undefined => early_return | _ => ret tt end) ;;;
  message <- gets (fun s => v_message (vars s)) ;;
  branch <- (if regenerate req
             then m <- deref "undefined (reading 'options')" message ;;
                  ret (truthy_string (messageId (c_options m)))
             else ret false) ;;
  (if branch : bool then
     m <- deref "undefined (reading 'previousResponse')" message ;;
     let previousResponse :=
       default [] (c_previousResponse m) ++ [mkPrevious (c_response m) (c_options m)] in
     d <- deref_data "text" (res_data r) ;;
     updateChat e (Some (c_id m)) (m_text d) (m_id d) (m_conversationId d)
                (detail_usage d) (Some previousResponse)
   else
     m <- deref "undefined (reading '_id')" message ;;
     d <- deref_data "text" (res_data r) ;;
     updateChat e (Some (c_id m)) (m_text d) (m_id d) (m_conversationId d)
                (detail_usage d) None) ;;;
  d <- deref_data "detail" (res_data r) ;;
  match detail_usage d with
  | Some u =>
      newObjectId e userId ;;;
      m <- deref "undefined (reading '_id')" message ;;
      insertChatUsage e userId (roomId req) (c_id m) (m_id d) u
  | None => ret tt
  end.

Definition finally_block (e : Env) (req : RequestProps) (userId : string) : M unit :=
  res_end ;;;
  try_catch (reconcile e req userId)
            (fun error => console_log (error_message error)).

Definition init_locals (req : RequestProps) : Locals :=
  mkLocals (systemMessage req) None None None true.

Definition chat_process (e : Env) (req : RequestProps) (userId : string) : M unit :=
  modify (set_vars (fun _ => init_locals req)) ;;;
  room <- getChatRoom e userId (roomId req) ;;
  (match room with
   | None => console_log (Some "Unable to get chat room")
   | Some _ => ret tt
   end) ;;;
  (match room with
   | Some r =>
       if isNotEmptyString (r_prompt r)
       then modify (set_vars (with_systemMessage (r_prompt r)))
       else ret tt
   | None => ret tt
   end) ;;;
  try_finally
    (try_catch (try_block e req userId)
               (fun error => res_write (ChunkError (error_message error))))
    (finally_block e req userId).

(** ** POST /chat-abort *)

Definition chat_abort (e : Env) (userId : string) (text messageId conversationId : string)
    : M unit :=
  try_catch
    (msgId <- abortChatProcess userId ;;
     updateChat e msgId (Some text) (Some messageId) (Some conversationId) None None ;;;
     res_send "Success" "OK")
    (fun _ => res_send "Fail" "重置邮件已发送 | Reset email has been sent").

(** ** GET /chat-history and GET /chat-response-history *)

Record ConversationOptions := mkConvOptions {
  co_parentMessageId : option string;
  co_conversationId : option string
}.

Record ItemRequest := mkItemRequest {
  ir_prompt : string;
  ir_parentMessageId : option string;
  ir_options : option ConversationOptions
}.

Record UsageView := mkUsageView {
  uv_completion_tokens : option Z;
  uv_prompt_tokens : option Z;
  uv_total_tokens : option Z;
  uv_estimated : option bool
}.

Record HistoryItem := mkItem {
  h_uuid : Z;
  h_dateTime : Z;
  h_text : option string;
  h_inversion : bool;
  h_error : bool;
  h_loading : option bool;
  h_responseCount : option nat;
  h_conversationOptions : option ConversationOptions;
  h_requestOptions : ItemRequest;
  h_usage : option UsageView
}.

Inductive Payload := PNull | PList (l : list HistoryItem) | PItem (i : HistoryItem).

(** The object given to [res.send]. *)
Record Reply := mkReply {
  rp_status : string;
  rp_message : option string;
  rp_data : Payload
}.

(** [o.completion_tokens ? { .. } : undefined] *)
Definition usage_view (o : ChatOptions) : option UsageView :=
  if truthy_number (completion_tokens o)
  then Some (mkUsageView (or_null_number (completion_tokens o))
                         (or_null_number (prompt_tokens o))
                         (or_null_number (total_tokens o))
                         (or_null_bool (estimated o)))
  else None.

Definition responseCount (c : ChatInfo) : nat :=
  (match c_previousResponse c with Some l => length l | None => 0 end + 1)%nat.

Definition prompt_item (c : ChatInfo) : HistoryItem :=
  mkItem (c_uuid c) (c_dateTime c) (Some (c_prompt c)) true false None None None
         (mkItemRequest (c_prompt c) None None) None.

(** The response-side object, built from the turn and from whichever
    [{ response, options }] is shown. *)
Definition response_item (c : ChatInfo) (r : PreviousResponse) : HistoryItem :=
  let conv := mkConvOptions (messageId (p_options r)) (conversationId (p_options r)) in
  mkItem (c_uuid c) (c_dateTime c) (p_response r) false false (Some false)
         (Some (responseCount c)) (Some conv)
         (mkItemRequest (c_prompt c) (parentMessageId (p_options r)) (Some conv))
         (usage_view (p_options r)).

Definition current (c : ChatInfo) : PreviousResponse :=
  mkPrevious (c_response c) (c_options c).

(** The body of [chats.forEach((c) => ..)]. *)
Definition chat_history_push (result : list HistoryItem) (c : ChatInfo) : list HistoryItem :=
  let result :=
    if bool_decide (c_status c ≠ InversionDeleted)
    then result ++ [prompt_item c] else result in
  if bool_decide (c_status c ≠ ResponseDeleted)
  then result ++ [response_item c (current c)] else result.

(** [!roomId || !await existsChatRoom(userId, roomId)] *)
Definition unknown_room (e : Env) (userId : string) (roomId : Z) : M bool :=
  if bool_decide (roomId = 0%Z) then ret true
  else ok <- existsChatRoom e userId roomId ;; ret (negb ok).

(** [listing] is what [getChats(roomId, lastId)] answers; the paging of
    storage/mongo.ts is not in the sources. *)
Definition chat_history (e : Env) (userId : string) (roomId : Z)
    (listing : Outcome (list ChatInfo)) : M Reply :=
  try_catch
    (unknown <- unknown_room e userId roomId ;;
     if unknown : bool then ret (mkReply "Success" None (PList []))
     else
       chats <- settle listing ;;
       ret (mkReply "Success" None (PList (fold_left chat_history_push chats []))))
    (fun _ => ret (mkReply "Fail" (Some "Load error") PNull)).

(** [a[index]] for an integer index. *)
Definition at_index {A} (l : list A) (index : Z) : option A :=
  if bool_decide (index < 0)%Z then None else l !! Z.to_nat index.

Definition chat_response_history (e : Env) (userId : string) (roomId uuid index : Z)
    : M Reply :=
  try_catch
    (unknown <- unknown_room e userId roomId ;;
     if unknown : bool then ret (mkReply "Success" None (PList []))
     else
       chat <- getChat e roomId uuid ;;
       c <- deref "null (reading 'previousResponse')" chat ;;
       match c_previousResponse c with
       | None => ret (mkReply "Fail" (Some "Error") (PList []))
       | Some previousResponse =>
           if bool_decide (Z.of_nat (length previousResponse) < index)%Z
           then ret (mkReply "Fail" (Some "Error") (PList []))
           else
             response <-
               (if bool_decide (index >= Z.of_nat (length previousResponse))%Z
                then ret (current c)
                else deref "undefined (reading 'options')"
                           (at_index previousResponse index)) ;;
             ret (mkReply "Success" None (PItem (response_item c response)))
       end)
    (fun _ => ret (mkReply "Fail" (Some "Load error") PNull)).

(** What one turn adds to the listing. *)
Definition turn_items (c : ChatInfo) : list HistoryItem := chat_history_push [] c.

(** Express hands every request a response object of its own; the log of
    collaborator calls is kept per request. *)
Definition incoming (s : State) : State :=
  mkState (rooms s) (chats s) (usages s) (threads s) [] false (console s) []
          (vars s).

(** The state after the [process] callback saw one event, and after it saw
    a sequence of them. *)
Definition process_state (chat : ChatMessage) (s : State) : State :=
  snd (process chat s).

Definition relay (evs : list ChatMessage) (s : State) : State :=
  fold_left (fun s ev => process_state ev s) evs s.

(** Closed forms used to state what the [finally] block persists: the value
    of [result.data] after normalisation, and the branch list handed to
    [updateChat]. *)
Definition final_data (v : Locals) : JsData :=
  match v_result v with
  | Some r =>
      if bool_decide (res_status r = Some "Success") then res_data r
      else Obj (mkMessage None None (res_message r) None)
  | None => data_of (v_lastResponse v)
  end.

Definition branch_entry (m : ChatInfo) : PreviousResponse :=
  mkPrevious (c_response m) (c_options m).

Definition branch_list (regenerate : bool) (m : ChatInfo)
    : option (list PreviousResponse) :=
  if regenerate && truthy_string (messageId (c_options m))
  then Some (default [] (c_previousResponse m) ++ [branch_entry m])
  else None.

Definition update_call (regenerate : bool) (m : ChatInfo) (d : ChatMessage) : Effect :=
  CallUpdateChat (Some (c_id m)) (m_text d) (m_id d) (m_conversationId d)
                 (detail_usage d) (branch_list regenerate m).

Definition is_partial (c : Chunk) : Prop :=
  match c with ChunkPartial _ _ => True | _ => False end.

(** The last write of a finished response: the final result, an
    error-shaped chunk, or the body of a [res.send]. *)
Definition terminal (c : Chunk) : Prop :=
  match c with ChunkPartial _ _ => False | _ => True end.

(** Calls that read or compute, as opposed to the two store writes of the
    [finally] block. *)
Definition is_write (ev : Effect) : Prop :=
  match ev with
  | CallUpdateChat _ _ _ _ _ _ | CallInsertChatUsage _ _ _ _ _ => True
  | _ => False
  end.

(** What holds once the [try] block has driven the backend with the argument
    object [o], started from [s] and stopped in [s1]. *)
Definition streamed (e : Env) (s s1 : State) (o : RequestOptions) : Prop :=
  ro_systemMessage o = v_systemMessage (vars s) ∧
  (∃ m k, v_message (vars s1) = Some m ∧ chats s1 !! k = Some m ∧
          ro_messageId o = c_id m) ∧
  v_lastResponse (vars s1)
  = match last (env_events e) with
    | Some ev => Some ev
    | None => v_lastResponse (vars s)
    end ∧
  v_result (vars s1)
  = match env_reply e with
    | Returns r => Some (of_response r)
    | Throws _ => v_result (vars s)
    end.

(** The system prompt in force for a request, in the words of the spec: the
    room's stored prompt when it is a non-empty string, the caller's
    [systemMessage] otherwise. *)
Definition effective_systemMessage (req : RequestProps) (room : option ChatRoom)
    : option string :=
  match room with
  | Some r => if isNotEmptyString (r_prompt r) then r_prompt r else systemMessage req
  | None => systemMessage req
  end.

(** The [catch] clause of /chat-process. *)
Definition caught (c : Completion unit) (s : State) : State :=
  match c with
  | Thrown err => set_body (fun b => b ++ [ChunkError (error_message err)]) s
  | _ => s
  end.

(** One request to /chat-process, run against the state [s] of the server. *)
Definition post_chat_process (e : Env) (req : RequestProps) (userId : string)
    (s : State) : Completion unit * State :=
  chat_process e req userId (incoming s).

(** ** Concrete requests

    The end-to-end scenarios of the spec and the inputs the statements below
    are evaluated on. *)

Definition no_options : ChatOptions := mkOptions None None None None None None None.

Definition idle : Locals := mkLocals None None None None true.

Definition server (rs : list ChatRoom) (cs : list ChatInfo) : State :=
  mkState rs cs [] ∅ [] false [] [] idle.

(** The user of the scenarios, by the id the store gave them. *)
Definition alice : string := "64a1f0c2b3d4e5f60718293a".

Definition maths : ChatRoom := mkRoom 1 alice "maths" None None Normal.
Definition terse : ChatRoom := mkRoom 2 alice "terse" (Some "be brief") None Normal.
Definition theirs : ChatRoom := mkRoom 9 "v" "private" None None Normal.

Definition partial (t : string) : ChatMessage :=
  mkMessage (Some "m1") (Some "c1") (Some t) None.

Definition answer (id t : string) (u : option UsageResponse) : ChatMessage :=
  mkMessage (Some id) (Some "c1") (Some t) (Some (mkDetail u [mkChoice (Some "stop")])).

Definition succeed (m : ChatMessage) : Outcome ChatResponse :=
  Returns (mkResponse "Success" None (Some m)).

Definition no_fault : StoreOp -> option JsError := fun _ => None.

(** The strings the driver's [ObjectId] constructor takes: 24 hexadecimal
    digits, or 12 characters of one byte each; for any other string it
    throws. *)
Definition is_hex_digit (c : Ascii.ascii) : bool :=
  let n := Ascii.nat_of_ascii c in
  (Nat.leb 48 n && Nat.leb n 57) || (Nat.leb 65 n && Nat.leb n 70)
  || (Nat.leb 97 n && Nat.leb n 102).

Definition is_one_byte (c : Ascii.ascii) : bool := Nat.ltb (Ascii.nat_of_ascii c) 128.

Definition object_id_string (s : string) : bool :=
  (Nat.eqb (String.length s) 24 && forallb is_hex_digit (String.list_ascii_of_string s))
  || (Nat.eqb (String.length s) 12 && forallb is_one_byte (String.list_ascii_of_string s)).

Definition driver : string -> option JsError :=
  fun s =>
    if object_id_string s then None
    else Some (Error (Some "Argument passed in must be a string of 12 bytes or a string of 24 hex characters or an integer")).

(** An ordinary user, auditing switched off, a credential available. *)
Definition backend (events : list ChatMessage) (reply : Outcome ChatResponse) : Env :=
  mkEnv 100 (Returns (mkConfig (mkAudit false false)))
        (Returns (Some (mkUser [User] "gpt-3.5-turbo")))
        (Returns false) (Returns (Some (mkKey "sk"))) events reply no_fault driver.

(** The same user with the audit policy on and a prompt the audit rejects. *)
Definition audited : Env :=
  mkEnv 100 (Returns (mkConfig (mkAudit true false)))
        (Returns (Some (mkUser [User] "gpt-3.5-turbo")))
        (Returns true) (Returns (Some (mkKey "sk"))) [] (Throws (Error None)) no_fault
        driver.

(** The store rejects the room lookup. *)
Definition store_down : Env :=
  mkEnv 100 (Returns (mkConfig (mkAudit false false)))
        (Returns (Some (mkUser [User] "gpt-3.5-turbo")))
        (Returns false) (Returns (Some (mkKey "sk"))) []
        (succeed (answer "m1" "2+2=4" None))
        (fun op => match op with
                   | OpGetChatRoom => Some (Error (Some "connection closed"))
                   | _ => None
                   end)
        driver.

Definition ask (room : Z) (again : bool) : RequestProps :=
  mkRequest room 7 again "2+2?" no_options (Some "you are a calculator") None None.

Definition usage_A : UsageResponse := mkUsage 5 3 8 false.
Definition usage_zero : UsageResponse := mkUsage 0 0 0 false.

Definition scenario_A : Env :=
  backend [partial "2+2"; partial "2+2="; partial "2+2=4"]
          (succeed (answer "m1" "2+2=4" (Some usage_A))).

Definition scenario_B : Env :=
  backend [] (succeed (answer "m2" "The answer is 4." None)).

Definition after_A : State :=
  snd (post_chat_process scenario_A (ask 1 false) alice (server [maths; terse; theirs] [])).

Definition after_B : State :=
  snd (post_chat_process scenario_B (ask 1 true) alice after_A).

(** A third attempt at the turn of scenarios A and B. *)
Definition third_attempt : Env :=
  backend [] (succeed (answer "m3" "Four." None)).

(** A turn whose first attempt left no backend message id. *)
Definition unanswered : ChatInfo :=
  mkChat 1 1 7 100 "2+2?" (Some "upstream timeout") Normal no_options None.

(** The backend relays one event, then reports failure by value, or by
    throwing. *)
Definition failed_by_value : Env :=
  backend [partial "2+"] (Returns (mkResponse "Fail" (Some "rate limited") None)).

Definition failed_by_throw : Env :=
  backend [partial "2+"] (Throws (Error (Some "socket hang up"))).

Definition zero_usage : Env :=
  backend [] (succeed (answer "m1" "2+2=4" (Some usage_zero))).

(** The row scenario A leaves behind. *)
Definition turn_A : ChatInfo :=
  mkChat 1 1 7 100 "2+2?" (Some "2+2=4") Normal
         (mkOptions None (Some "m1") (Some "c1") (Some 5%Z) (Some 3%Z) (Some 8%Z)
                    (Some false))
         None.

(** The row scenario B leaves behind: scenario A's response is its one
    branch entry. *)
Definition turn_B : ChatInfo :=
  mkChat 1 1 7 100 "2+2?" (Some "The answer is 4.") Normal
         (mkOptions None (Some "m2") (Some "c1") None None None None)
         (Some [mkPrevious (Some "2+2=4") (c_options turn_A)]).

(** ** Closed forms for the relay *)

(** The chunk the [process] callback writes for one event, and the chunks it
    writes for a sequence of events; only the very first carries no leading
    newline. *)
Definition chuck_of (chat : ChatMessage) : Chuck :=
  mkChuck (m_id chat) (m_conversationId chat) (m_text chat)
          (match m_detail chat with
           | Some d => match choices d with
                       | c :: _ => finish_reason c
                       | [] => None
                       end
           | None => None
           end).

Fixpoint relay_chunks (first : bool) (evs : list ChatMessage) : list Chunk :=
  match evs with
  | [] => []
  | ev :: evs' => ChunkPartial first (chuck_of ev) :: relay_chunks false evs'
  end.

(** The chunk that closes a response once the backend has settled. *)
Definition closing_chunk (reply : Outcome ChatResponse) : Chunk :=
  match reply with
  | Returns r => ChunkData (data r)
  | Throws err => ChunkError (error_message err)
  end.

Definition is_stream (ev : Effect) : Prop :=
  match ev with CallChatReplyProcess _ => True | _ => False end.

(** ** POST /room-delete, /chat-delete and /chat-clear

    The three handlers check the room, await one store call and reply.  The
    store calls ([deleteChatRoom], [deleteChat], [clearChat] of
    storage/mongo.ts) are not in the sources and are arguments here: any
    action on the state, which may throw. *)

(** The replies of these handlers; [data], when the reply has it, is null. *)
Record Ack := mkAck {
  ack_status : string;
  ack_message : option string;
  ack_has_data : bool
}.

(** The shape the three handlers share. *)
Definition guarded (e : Env) (userId : string) (roomId : Z) (op : M unit)
    (success : Ack) : M Ack :=
  try_catch
    (unknown <- unknown_room e userId roomId ;;
     if unknown : bool then ret (mkAck "Fail" (Some "Unknow room") true)
     else op ;;; ret success)
    (fun error =>
       console_log (error_message error) ;;;
       ret (mkAck "Fail" (Some "Delete error") true)).

Definition room_delete (e : Env) (deleteChatRoom : string -> Z -> M unit)
    (userId : string) (roomId : Z) : M Ack :=
  guarded e userId roomId (deleteChatRoom userId roomId) (mkAck "Success" None false).

Definition chat_delete (e : Env) (deleteChat : Z -> Z -> bool -> M unit)
    (userId : string) (roomId uuid : Z) (inversion : bool) : M Ack :=
  guarded e userId roomId (deleteChat roomId uuid inversion) (mkAck "Success" None true).

Definition chat_clear (e : Env) (clearChat : Z -> M unit)
    (userId : string) (roomId : Z) : M Ack :=
  guarded e userId roomId (clearChat roomId) (mkAck "Success" None true).

(** ** POST /session: the models offered to a user *)

(** An entry of [chatModelOptions] (storage/model.ts); the table itself is
    not in the sources and is an argument below. *)
Record ChatModelOption := mkModelOption {
  mo_label : string;
  mo_key : string;
  mo_value : string
}.

(** A cached credential, with the two fields /session reads. *)
Record CachedKey := mkCachedKey {
  ak_chatModels : list string;
  ak_userRoles : list UserRole
}.

(** Modelled from the spec: [hasAnyRole] of utils/is is not in the sources;
    a credential is open to a caller when the caller's role set intersects
    the credential's permitted-role set. *)
Definition hasAnyRole (userRoles roles : list UserRole) : bool :=
  existsb (fun r => includes r userRoles) roles.

(** An element of the [count] array. *)
Record ModelCount := mkModelCount { mc_key : string; mc_count : nat }.

(** [count.filter(d => d.key === value)] *)
Definition with_key (value : string) (count : list ModelCount) : list ModelCount :=
  filter (fun d => mc_key d = value) count.

(** [count.filter(d => d.key === value)[0].count++]: the first entry with
    that key is the object incremented, in place. *)
Fixpoint increment_first (value : string) (count : list ModelCount) : list ModelCount :=
  match count with
  | [] => []
  | d :: rest =>
      if bool_decide (mc_key d = value)
      then mkModelCount (mc_key d) (S (mc_count d)) :: rest
      else d :: increment_first value rest
  end.

(** The body of [keys.forEach((key) => ..)] for one model. *)
Definition count_key (value : string) (count : list ModelCount) (key : CachedKey)
    : list ModelCount :=
  if bool_decide (value ∈ ak_chatModels key) then
    if bool_decide (length (with_key value count) ≤ 0)%nat
    then count ++ [mkModelCount value 1]
    else increment_first value count
  else count.

(** The two nested [forEach] loops. *)
Definition count_models (chatModelOptions : list ChatModelOption)
    (keys : list CachedKey) : list ModelCount :=
  fold_left (fun count chatModel => fold_left (count_key (mo_value chatModel)) keys count)
            chatModelOptions [].

(** [c.count > 1 ? ` (${c.count})` : ''] *)
Definition suffix (n : nat) : string :=
  if bool_decide (1 < n)%nat then String.append " (" (String.append (pretty n) ")") else "".

(** The body of [count.forEach((c) => ..)]; [None] stands for the TypeError
    of reading [label] off a model that is not in the table. *)
Definition model_entry (chatModelOptions : list ChatModelOption) (c : ModelCount)
    : option ChatModelOption :=
  match filter (fun d => mo_value d = mc_key c) chatModelOptions with
  | thisChatModel :: _ =>
      Some (mkModelOption (String.append (mo_label thisChatModel) (suffix (mc_count c)))
                          (mc_key c) (mc_key c))
  | [] => None
  end.

(** [(await getCacheApiKeys()).filter(d => hasAnyRole(d.userRoles, user.roles))]:
    the callback reads [user.roles] once per cached key, so a missing user
    only throws when there is a key to look at. *)
Definition eligible_keys (allKeys : list CachedKey) (user : option UserInfo)
    : Outcome (list CachedKey) :=
  match allKeys, user with
  | [], _ => Returns []
  | _ :: _, None => Throws (TypeError "null (reading 'roles')")
  | _ :: _, Some u =>
      Returns (List.filter (fun d => hasAnyRole (ak_userRoles d) (roles u)) allKeys)
  end.

Definition offered_models (chatModelOptions : list ChatModelOption)
    (keys : list CachedKey) : Outcome (list ChatModelOption) :=
  match mapM (model_entry chatModelOptions) (count_models chatModelOptions keys) with
  | Some l => Returns l
  | None => Throws (TypeError "undefined (reading 'label')")
  end.

(** What /session reads of the configuration. *)
Record SessionConfig := mkSessionConfig {
  apiModel : string;
  loginEnabled : bool;
  registerEnabled : bool;
  siteTitle : string
}.

Record SessionData := mkSessionData {
  sd_auth : bool;
  sd_allowRegister : bool;
  sd_model : string;
  sd_title : string;
  sd_chatModels : list ChatModelOption;
  sd_allChatModels : list ChatModelOption
}.

Record SessionReply := mkSessionReply {
  sr_status : string;
  sr_message : option string;
  sr_data : option SessionData
}.

Definition and_then {A B} (o : Outcome A) (k : A -> Outcome B) : Outcome B :=
  match o with Returns a => k a | Throws err => Throws err end.

(** The handler; its arguments after the table are what [getCacheConfig()]
    answers the first and the second time, and what [getUserId(req)],
    [getUserById(userId)] and [getCacheApiKeys()] answer. *)
Definition session (chatModelOptions : list ChatModelOption)
    (config config2 : Outcome SessionConfig) (userId : Outcome (option string))
    (user : Outcome (option UserInfo)) (cached : Outcome (list CachedKey))
    : SessionReply :=
  let body :=
    and_then config (fun config =>
    let hasAuth := loginEnabled config in
    and_then config2 (fun config2 =>
    let allowRegister := registerEnabled config2 in
    let model :=
      if negb (String.eqb (apiModel config) "ChatGPTAPI")
         && negb (String.eqb (apiModel config) "ChatGPTUnofficialProxyAPI")
      then "ChatGPTAPI" else apiModel config in
    and_then userId (fun userId =>
    and_then
      (match userId with
       | Some _ =>
           and_then user (fun user =>
           and_then cached (fun allKeys =>
           and_then (eligible_keys allKeys user) (fun keys =>
           offered_models chatModelOptions keys)))
       | None => Returns [mkModelOption "" "" "gpt-3.5-turbo"]
       end)
      (fun chatModels =>
         Returns (mkSessionData hasAuth allowRegister model (siteTitle config)
                                chatModels chatModelOptions))))) in
  match body with
  | Returns data => mkSessionReply "Success" (Some "") (Some data)
  | Throws err => mkSessionReply "Fail" (error_message err) None
  end.




(** ** The account handlers

    /user-register, /user-login, /user-send-reset-mail, /user-reset-password,
    /user-status, /verify and /verifyadmin.  Their collaborators (user store, mailer, token checks, md5,
    jwt) are not in the sources: reads are answers taken from [Deps], writes
    and mails are recorded in a log, and any of them may reject. *)

Record UserRow := mkUserRow {
  ur_id : string;
  ur_email : string;
  ur_password : string;
  ur_status : Status;
  ur_roles : list UserRole;
  ur_name : option string;
  ur_avatar : option string;
  ur_description : option string;
  ur_config : option string
}.

Inductive AccountCall :=
| DoCreateUser (email password : string) (isRoot : bool)
| DoVerifyUser (email : string) (st : Status)
| DoUpdateUserStatus (userId : string) (st : Status)
| DoUpdateUserPassword (userId password : string)
| DoSendVerifyMail (to url : string)
| DoSendVerifyMailAdmin (to : option string) (email url : string)
| DoSendNoticeMail (to : string)
| DoSendResetPasswordMail (to url : string).

Record SiteConfig := mkSiteConfig {
  sc_registerEnabled : bool;
  sc_registerMails : option string;
  sc_registerReview : bool;
  sc_loginSalt : string
}.

(** The object /user-login signs. *)
Record TokenPayload := mkTokenPayload {
  tp_name : option string;
  tp_avatar : option string;
  tp_description : option string;
  tp_userId : string;
  tp_root : bool;
  tp_config : option string
}.

Record Deps := mkDeps {
  isEmail : string -> bool;
  md5 : string -> string;
  toLowerCase : string -> string;
  trim : string -> string;
  jwt_sign : TokenPayload -> string -> Outcome string;
  ROOT_USER : option string;                          (* process.env.ROOT_USER *)
  getUser : string -> Outcome (option UserRow);
  getUserRowById : string -> Outcome (option UserRow);  (* getUserById(userId) *)
  getSiteConfig : Outcome SiteConfig;                 (* (await getCacheConfig()).siteConfig *)
  getUserVerifyUrl : string -> Outcome string;
  getUserVerifyUrlAdmin : string -> Outcome string;
  getUserResetPasswordUrl : string -> Outcome string;
  checkUserVerify : string -> Outcome string;         (* token -> username, or throws *)
  checkUserVerifyAdmin : string -> Outcome string;
  checkUserResetPassword : string -> string -> bool;
  rejects : AccountCall -> option JsError
}.

Record AccountReply := mkAccountReply {
  ar_status : string;
  ar_message : option string;
  ar_token : option string
}.

(** The account monad: a log of writes and mails, exceptions and [return]. *)
Definition W (A : Type) : Type := list AccountCall -> Completion A * list AccountCall.

Definition wret {A} (a : A) : W A := fun l => (Val a, l).

Definition wbind {A B} (m : W A) (k : A -> W B) : W B :=
  fun l =>
    match m l with
    | (Val a, l') => k a l'
    | (Thrown e, l') => (Thrown e, l')
    | (Return, l') => (Return, l')
    end.

Notation "x <~ m ;; k" := (wbind m (fun x => k))
  (at level 100, m at next level, right associativity).
Notation "m ;;~ k" := (wbind m (fun _ => k))
  (at level 100, right associativity).

(** [throw error], and [throw new Error(message)]. *)
Definition wraise {A} (error : JsError) : W A := fun l => (Thrown error, l).

Definition wthrow {A} (message : string) : W A := wraise (Error (Some message)).

Definition await {A} (o : Outcome A) : W A :=
  fun l => match o with Returns a => (Val a, l) | Throws e => (Thrown e, l) end.

(** A write or a mail: logged when it goes through. *)
Definition perform (d : Deps) (c : AccountCall) : W unit :=
  fun l => match rejects d c with
           | Some e => (Thrown e, l)
           | None => (Val tt, l ++ [c])
           end.

(** The same call without [await]: a rejection is nobody's to catch. *)
Definition fire (d : Deps) (c : AccountCall) : W unit :=
  fun l => match rejects d c with
           | Some _ => (Val tt, l)
           | None => (Val tt, l ++ [c])
           end.

(** [try { m } catch (error) { res.send({ status: 'Fail', message:
    error.message, data: null }) }], the shape of every account handler; a
    reply sent before a [return] is the value of [m]. *)
Definition replying (m : W AccountReply) : W AccountReply :=
  fun l =>
    match m l with
    | (Thrown e, l') => (Val (mkAccountReply "Fail" (error_message e) None), l')
    | r => r
    end.

Definition reply_fail (message : string) : AccountReply :=
  mkAccountReply "Fail" (Some message) None.

Definition reply_success (message : string) : AccountReply :=
  mkAccountReply "Success" (Some message) None.

(** *** Strings *)

(** [s.split(',')] *)
Fixpoint split_comma (s : string) : list string :=
  match s with
  | EmptyString => [EmptyString]
  | String c rest =>
      if Ascii.eqb c ","%char then EmptyString :: split_comma rest
      else match split_comma rest with
           | x :: xs => String c x :: xs
           | [] => [String c EmptyString]
           end
  end.

(** [s.endsWith(t)]: [t] is [s] or the end of what follows its first
    character. *)
Fixpoint endsWith (s t : string) : bool :=
  String.eqb s t ||
  match s with
  | EmptyString => false
  | String _ s' => endsWith s' t
  end.

(** *** POST /user-register *)

(** The [for] loop over the allowed suffixes, with its [break]. *)
Fixpoint allow_suffix (lowered : string) (emailSuffixs : list string)
    (allowSuffix : bool) : bool :=
  match emailSuffixs with
  | [] => allowSuffix
  | element :: rest =>
      let allowSuffix := endsWith lowered element in
      if allowSuffix then true else allow_suffix lowered rest allowSuffix
  end.

Definition user_register (d : Deps) (username password : string) : W AccountReply :=
  replying
    (config <~ await (getSiteConfig d) ;;
     if negb (sc_registerEnabled config)
     then wret (reply_fail "注册账号功能未启用 | Register account is disabled!")
     else if negb (isEmail d username)
     then wret (reply_fail "请输入正确的邮箱 | Please enter a valid email address.")
     else if isNotEmptyString (sc_registerMails config)
             && negb (allow_suffix (toLowerCase d username)
                                   (split_comma (default "" (sc_registerMails config)))
                                   false)
     then wret (reply_fail "该邮箱后缀不支持 | The email service provider is not allowed")
     else
       user <~ await (getUser d username) ;;
       match user with
       | Some user =>
           if bool_decide (ur_status user = PreVerify) then
             url <~ await (getUserVerifyUrl d username) ;;
             perform d (DoSendVerifyMail username url) ;;~
             wthrow "请去邮箱中验证 | Please verify in the mailbox"
           else if bool_decide (ur_status user = AdminVerify) then
             wthrow "请等待管理员开通 | Please wait for the admin to activate"
           else wret (reply_fail "账号已存在 | The email exists")
       | None =>
           let newPassword := md5 d password in
           let isRoot := bool_decide (Some (toLowerCase d username) = ROOT_USER d) in
           perform d (DoCreateUser username newPassword isRoot) ;;~
           if isRoot then wret (reply_success "注册成功 | Register success")
           else
             url <~ await (getUserVerifyUrl d username) ;;
             perform d (DoSendVerifyMail username url) ;;~
             wret (reply_success "注册成功, 去邮箱中验证吧 | Registration is successful, you need to go to email verification")
       end).

(** *** POST /user-login *)

Definition payload (user : UserRow) : TokenPayload :=
  mkTokenPayload (if truthy_string (ur_name user) then ur_name user
                  else Some (ur_email user))
                 (ur_avatar user) (ur_description user) (ur_id user)
                 (includes Admin (ur_roles user)) (ur_config user).

Definition user_login (d : Deps) (username password : option string) : W AccountReply :=
  replying
    (match username, password with
     | Some u, Some p =>
         if negb (truthy_string username) || negb (truthy_string password)
            || negb (isEmail d u)
         then wthrow "用户名或密码为空 | Username or password is empty"
         else
           user <~ await (getUser d u) ;;
           match user with
           | None => wthrow "用户不存在或密码错误 | User does not exist or incorrect password."
           | Some user =>
               if negb (String.eqb (ur_password user) (md5 d p))
               then wthrow "用户不存在或密码错误 | User does not exist or incorrect password."
               else if bool_decide (ur_status user = PreVerify)
               then wthrow "请去邮箱中验证 | Please verify in the mailbox"
               else if bool_decide (ur_status user = AdminVerify)
               then wthrow "请等待管理员开通 | Please wait for the admin to activate"
               else if bool_decide (ur_status user ≠ Normal)
               then wthrow "账户状态异常 | Account status abnormal."
               else
                 config <~ await (getSiteConfig d) ;;
                 token <~ await (jwt_sign d (payload user) (trim d (sc_loginSalt config))) ;;
                 wret (mkAccountReply "Success" (Some "登录成功 | Login successfully")
                                      (Some token))
           end
     | _, _ => wthrow "用户名或密码为空 | Username or password is empty"
     end).

(** *** POST /user-send-reset-mail *)

Definition user_send_reset_mail (d : Deps) (username : option string) : W AccountReply :=
  replying
    (match username with
     | Some u =>
         if negb (truthy_string username) || negb (isEmail d u)
         then wthrow "请输入格式正确的邮箱 | Please enter a correctly formatted email address."
         else
           user <~ await (getUser d u) ;;
           match user with
           | Some user =>
               if bool_decide (ur_status user ≠ Normal)
               then wthrow "账户状态异常 | Account status abnormal."
               else
                 url <~ await (getUserResetPasswordUrl d u) ;;
                 perform d (DoSendResetPasswordMail u url) ;;~
                 wret (reply_success "重置邮件已发送 | Reset email has been sent")
           | None => wthrow "账户状态异常 | Account status abnormal."
           end
     | None =>
         wthrow "请输入格式正确的邮箱 | Please enter a correctly formatted email address."
     end).

(** *** POST /user-reset-password *)

Definition user_reset_password (d : Deps) (username password sign : option string)
    : W AccountReply :=
  replying
    (match username, password with
     | Some u, Some p =>
         if negb (truthy_string username) || negb (truthy_string password)
            || negb (isEmail d u)
         then wthrow "用户名或密码为空 | Username or password is empty"
         else
           match sign with
           | Some sg =>
               if negb (truthy_string sign) || negb (checkUserResetPassword d sg u)
               then wthrow "链接失效, 请重新发送 | The link is invalid, please resend."
               else
                 user <~ await (getUser d u) ;;
                 match user with
                 | Some user =>
                     if bool_decide (ur_status user ≠ Normal)
                     then wthrow "账户状态异常 | Account status abnormal."
                     else
                       fire d (DoUpdateUserPassword (ur_id user) (md5 d p)) ;;~
                       wret (reply_success "密码重置成功 | Password reset successful")
                 | None => wthrow "账户状态异常 | Account status abnormal."
                 end
           | None => wthrow "链接失效, 请重新发送 | The link is invalid, please resend."
           end
     | _, _ => wthrow "用户名或密码为空 | Username or password is empty"
     end).

(** *** POST /user-status *)

Definition user_status (d : Deps) (userId : string) (status : Status) : W AccountReply :=
  replying
    (user <~ await (getUserRowById d userId) ;;
     perform d (DoUpdateUserStatus userId status) ;;~
     match user with
     | None => wraise (TypeError "null (reading 'status')")
     | Some user =>
         (if (bool_decide (ur_status user = PreVerify)
              || bool_decide (ur_status user = AdminVerify))
             && bool_decide (status = Normal)
          then perform d (DoSendNoticeMail (ur_email user))
          else wret tt) ;;~
         wret (mkAccountReply "Success" (Some "更新成功 | Update successfully") None)
     end).

(** *** POST /verify *)

Definition verify (d : Deps) (token : option string) : W AccountReply :=
  replying
    (match token with
     | Some tk =>
         if negb (truthy_string token) then wthrow "Secret key is empty"
         else
           username <~ await (checkUserVerify d tk) ;;
           user <~ await (getUser d username) ;;
           if match user with
              | Some user => bool_decide (ur_status user = Normal)
              | None => false
              end
           then wret (reply_fail "账号已存在 | The email exists")
           else
             config <~ await (getSiteConfig d) ;;
             if sc_registerReview config then
               perform d (DoVerifyUser username AdminVerify) ;;~
               url <~ await (getUserVerifyUrlAdmin d username) ;;
               perform d (DoSendVerifyMailAdmin (ROOT_USER d) username url) ;;~
               wret (reply_success "验证成功, 请等待管理员开通 | Verify successfully, Please wait for the admin to activate")
             else
               perform d (DoVerifyUser username Normal) ;;~
               wret (reply_success "验证成功 | Verify successfully")
     | None => wthrow "Secret key is empty"
     end).

(** *** POST /verifyadmin *)

Definition verifyadmin (d : Deps) (token : option string) : W AccountReply :=
  replying
    (match token with
     | Some tk =>
         if negb (truthy_string token) then wthrow "Secret key is empty"
         else
           username <~ await (checkUserVerifyAdmin d tk) ;;
           user <~ await (getUser d username) ;;
           if match user with
              | Some user => bool_decide (ur_status user = Normal)
              | None => false
              end
           then wret (reply_fail "账户已开通 | The email has been opened.")
           else
             perform d (DoVerifyUser username Normal) ;;~
             perform d (DoSendNoticeMail username) ;;~
             wret (reply_success "账户已激活 | Account has been activated.")
     | None => wthrow "Secret key is empty"
     end).

(** The same dependencies with the allowed-suffix list switched off. *)
Definition without_suffix_list (d : Deps) : Deps :=
  mkDeps (isEmail d) (md5 d) (toLowerCase d) (trim d) (jwt_sign d) (ROOT_USER d)
         (getUser d) (getUserRowById d)
         (match getSiteConfig d with
          | Returns c => Returns (mkSiteConfig (sc_registerEnabled c) None
                                               (sc_registerReview c) (sc_loginSalt c))
          | Throws e => Throws e
          end)
         (getUserVerifyUrl d) (getUserVerifyUrlAdmin d) (getUserResetPasswordUrl d)
         (checkUserVerify d) (checkUserVerifyAdmin d)
         (checkUserResetPassword d) (rejects d).

(** ** More concrete inputs *)

(** What scenario A hands to the backend. *)
Definition sent_A : RequestOptions :=
  mkReqOptions "2+2?" no_options (Some "you are a calculator") None None
               "gpt-3.5-turbo" (Some (mkKey "sk")) alice 1.

(** No credential can be selected. *)
Definition no_key : Env :=
  mkEnv 100 (Returns (mkConfig (mkAudit false false)))
        (Returns (Some (mkUser [User] "gpt-3.5-turbo")))
        (Returns false) (Throws (Error (Some "No available key")))
        [] (succeed (answer "m1" "2+2=4" None)) no_fault driver.

(** The store rejects every update of a turn. *)
Definition update_down : Env :=
  mkEnv 100 (Returns (mkConfig (mkAudit false false)))
        (Returns (Some (mkUser [User] "gpt-3.5-turbo")))
        (Returns false) (Returns (Some (mkKey "sk")))
        [partial "2+2"] (succeed (answer "m1" "2+2=4" (Some usage_A)))
        (fun op => match op with
                   | OpUpdateChat => Some (Error (Some "write conflict"))
                   | _ => None
                   end)
        driver.

(** A turn whose response was deleted. *)
Definition retracted : ChatInfo :=
  mkChat 2 1 8 100 "3+3?" (Some "6") ResponseDeleted no_options None.

(** A model table, a credential pool and a site configuration for /session. *)
Definition table : list ChatModelOption :=
  [mkModelOption "GPT-3.5" "gpt-3.5-turbo" "gpt-3.5-turbo";
   mkModelOption "GPT-4" "gpt-4" "gpt-4";
   mkModelOption "GPT-4 32k" "gpt-4-32k" "gpt-4-32k"].

Definition pool : list CachedKey :=
  [mkCachedKey ["gpt-3.5-turbo"; "gpt-4"] [User];
   mkCachedKey ["gpt-4-32k"] [Admin];
   mkCachedKey ["gpt-3.5-turbo"] [User; Guest]].

Definition front (model : string) : SessionConfig :=
  mkSessionConfig model true false "Chat".

(** Accounts, and collaborators that know them.  [toLowerCase] and [trim]
    stand for themselves on the lower-case addresses and the salt used
    here. *)
Definition ann : UserRow :=
  mkUserRow "id-ann" "ann@site.org" "md5(secret)" Normal [User] (Some "Ann")
            None None None.

Definition bob : UserRow :=
  mkUserRow "id-bob" "bob@site.org" "md5(hunter2)" PreVerify [User] None
            None None None.

Definition office (mails : option string) (review : bool)
    (rejects : AccountCall -> option JsError) : Deps :=
  mkDeps (fun s => endsWith s "@site.org" || endsWith s "@mail.com")
         (fun s => String.append "md5(" (String.append s ")"))
         (fun s => s)
         (fun s => s)
         (fun p _ => Returns (String.append "jwt:" (tp_userId p)))
         (Some "root@site.org")
         (fun u => Returns (if String.eqb u "ann@site.org" then Some ann
                            else if String.eqb u "bob@site.org" then Some bob
                            else None))
         (fun i => Returns (if String.eqb i "id-ann" then Some ann
                            else if String.eqb i "id-bob" then Some bob
                            else None))
         (Returns (mkSiteConfig true mails review "salt"))
         (fun u => Returns (String.append "/verify?" u))
         (fun u => Returns (String.append "/verify-admin?" u))
         (fun u => Returns (String.append "/reset?" u))
         (fun tk => if String.eqb tk "tk-bob" then Returns "bob@site.org"
                    else Throws (Error (Some "invalid token")))
         (fun tk => if String.eqb tk "admin-tk-bob" then Returns "bob@site.org"
                    else Throws (Error (Some "invalid token")))
         (fun sg u => String.eqb sg (String.append "sign:" u))
         rejects.

Definition accepts : AccountCall -> option JsError := fun _ => None.

Definition read_only : AccountCall -> option JsError :=
  fun _ => Some (Error (Some "store is read-only")).


(** * Properties *)

(** ** Running the monad *)

Tactic Notation "unfold_monad" :=
  cbv [bind ret throw early_return gets modify try_catch try_finally log settle
       fault deref res_write res_end res_send console_log].
Tactic Notation "unfold_monad" "in" hyp(H) :=
  cbv [bind ret throw early_return gets modify try_catch try_finally log settle
       fault deref res_write res_end res_send console_log] in H.

Ltac unfold_state :=
  cbn [set_chats set_usages set_threads set_body set_ended set_console set_trace
       set_vars with_systemMessage with_lastResponse with_result with_message
       with_firstChunk
       rooms chats usages threads body ended console trace vars
       v_systemMessage v_lastResponse v_result v_message v_firstChunk].

Lemma bind_val {A B} (m : M A) (k : A -> M B) s a s' :
  m s = (Val a, s') -> bind m k s = k a s'.
Proof. intros H. unfold bind. by rewrite H. Qed.

(** ** GET /chat-history *)

Lemma chat_history_push_app result c :
  chat_history_push result c = result ++ turn_items c.
Proof.
  unfold turn_items, chat_history_push.
  repeat case_bool_decide; simpl; by rewrite <- ?app_assoc, ?app_nil_r.
Qed.

Lemma chat_history_fold chats acc :
  fold_left chat_history_push chats acc = acc ++ flat_map turn_items chats.
Proof.
  revert acc. induction chats as [|c chats IH]; intros acc; simpl.
  - by rewrite app_nil_r.
  - by rewrite IH, chat_history_push_app, <- app_assoc.
Qed.

Lemma unknown_room_known e userId roomId r s :
  roomId ≠ 0%Z ->
  env_fault e OpGetChatRoom = None ->
  find_room userId roomId (rooms s) = Some r ->
  unknown_room e userId roomId s = (Val false, s).
Proof.
  intros Hz Hf Hr. unfold unknown_room, existsChatRoom.
  rewrite bool_decide_eq_false_2 by done.
  unfold_monad. rewrite Hf, Hr. done.
Qed.

Lemma turn_items_prompt c i :
  i ∈ turn_items c -> h_inversion i = true ->
  i = prompt_item c ∧ c_status c ≠ InversionDeleted.
Proof.
  unfold turn_items, chat_history_push.
  repeat case_bool_decide; simpl; intros Hin Hinv;
    repeat (apply elem_of_cons in Hin as [-> | Hin]); try done;
    by apply elem_of_nil in Hin.
Qed.

Lemma turn_items_response c i :
  i ∈ turn_items c -> h_inversion i = false ->
  i = response_item c (current c) ∧ c_status c ≠ ResponseDeleted.
Proof.
  unfold turn_items, chat_history_push.
  repeat case_bool_decide; simpl; intros Hin Hinv;
    repeat (apply elem_of_cons in Hin as [-> | Hin]); try done;
    by apply elem_of_nil in Hin.
Qed.

Lemma prompt_item_in c :
  c_status c ≠ InversionDeleted -> prompt_item c ∈ turn_items c.
Proof.
  intros H. unfold turn_items, chat_history_push.
  rewrite (bool_decide_eq_true_2 _ H). case_bool_decide; set_solver.
Qed.

Lemma response_item_in c :
  c_status c ≠ ResponseDeleted -> response_item c (current c) ∈ turn_items c.
Proof.
  intros H. unfold turn_items, chat_history_push.
  rewrite (bool_decide_eq_true_2 _ H). case_bool_decide; set_solver.
Qed.

Lemma usage_view_is_Some o :
  is_Some (usage_view o) ↔ ∃ n, completion_tokens o = Some n ∧ n ≠ 0%Z.
Proof.
  unfold usage_view, truthy_number.
  destruct (completion_tokens o) as [n|]; simpl.
  - destruct (Z.eqb_spec n 0); simpl; split.
    + by intros [? ?].
    + by intros (? & [= <-] & ?).
    + eauto.
    + eauto.
  - split; [by intros [? ?] | by intros (? & ? & ?)].
Qed.

(** C10. Every turn [c] of the listing contributes, in listing order, a block
    of entries to the reply of /chat-history: the block has a prompt-side
    entry (carrying the prompt) iff the turn's tag is not [InversionDeleted],
    a response-side entry (carrying the response) iff the tag is not
    [ResponseDeleted], and a response-side entry reports usage iff the stored
    completion-token count is a nonzero number. *)
Theorem chat_history_turn_entries e userId roomId r s pre c post :
  roomId ≠ 0%Z ->
  env_fault e OpGetChatRoom = None ->
  find_room userId roomId (rooms s) = Some r ->
  ∃ added,
    fst (chat_history e userId roomId (Returns (pre ++ c :: post)) s)
    = Val (mkReply "Success" None
             (PList (flat_map turn_items pre ++ added ++ flat_map turn_items post))) ∧
    ((∃ i, i ∈ added ∧ h_inversion i = true) ↔ c_status c ≠ InversionDeleted) ∧
    ((∃ i, i ∈ added ∧ h_inversion i = false) ↔ c_status c ≠ ResponseDeleted) ∧
    (∀ i, i ∈ added -> h_inversion i = true ->
          h_uuid i = c_uuid c ∧ h_text i = Some (c_prompt c)) ∧
    (∀ i, i ∈ added -> h_inversion i = false ->
          h_uuid i = c_uuid c ∧ h_text i = c_response c ∧
          (is_Some (h_usage i) ↔
           ∃ n, completion_tokens (c_options c) = Some n ∧ n ≠ 0%Z)).
Proof.
  intros Hz Hf Hr. exists (turn_items c). split; [|repeat split].
  - unfold chat_history, try_catch.
    erewrite bind_val by (eapply unknown_room_known; eauto).
    unfold_monad. simpl.
    by rewrite chat_history_fold, flat_map_app.
  - intros (i & Hin & Hinv). by destruct (turn_items_prompt c i Hin Hinv).
  - intros H. exists (prompt_item c). split; [by apply prompt_item_in | done].
  - intros (i & Hin & Hinv). by destruct (turn_items_response c i Hin Hinv).
  - intros H. exists (response_item c (current c)).
    split; [by apply response_item_in | done].
  - by destruct (turn_items_prompt c i H H0) as [-> _].
  - by destruct (turn_items_prompt c i H H0) as [-> _].
  - by destruct (turn_items_response c i H H0) as [-> _].
  - by destruct (turn_items_response c i H H0) as [-> _].
  - destruct (turn_items_response c i H H0) as [-> _]. apply usage_view_is_Some.
  - destruct (turn_items_response c i H H0) as [-> _]. apply usage_view_is_Some.
Qed.

(** ** GET /chat-response-history *)

Lemma getChat_found e roomId uuid c s :
  env_fault e OpGetChat = None ->
  find_chat roomId uuid (chats s) = Some c ->
  ∃ s', getChat e roomId uuid s = (Val (Some c), s') ∧ chats s' = chats s.
Proof.
  intros Hf Hc. unfold getChat. unfold_monad. rewrite Hf. simpl.
  rewrite Hc. eauto.
Qed.


(** ** POST /chat-abort *)

Lemma update_chat_absent text id conv u prev cs :
  update_chat None text id conv u prev cs = cs.
Proof.
  unfold update_chat. induction cs as [|c cs IH]; [done|].
  rewrite fmap_cons, IH. done.
Qed.

Lemma update_chat_lookup chatId text id conv u prev cs k c :
  cs !! k = Some c ->
  update_chat chatId text id conv u prev cs !! k
  = Some (if bool_decide (Some (c_id c) = chatId)
          then update_row text id conv u prev c else c).
Proof.
  intros H. unfold update_chat. by rewrite list_lookup_fmap, H.
Qed.

Lemma chat_abort_run e userId text mid cid s :
  env_fault e OpUpdateChat = None ->
  ∃ s', chat_abort e userId text mid cid s = (Val tt, s') ∧
    chats s' = update_chat (t_messageId <$> threads s !! userId) (Some text)
                           (Some mid) (Some cid) None None (chats s) ∧
    usages s' = usages s ∧ rooms s' = rooms s ∧
    threads s' = alter cancel userId (threads s) ∧
    body s' = body s ++ [ChunkSend "Success" "OK"] ∧
    ended s' = true.
Proof.
  intros Hf. unfold chat_abort, abortChatProcess, updateChat.
  unfold_monad. rewrite Hf. eexists. split; [reflexivity|]. unfold_state. repeat split.
Qed.

(** C5. With the store answering, a call to /chat-abort reports success.
    When a turn is in flight for the caller, its handle is marked cancelled,
    the row of that turn gets the caller's closing text, message id and
    conversation id and loses its usage counters, and every other row is
    untouched.  When no turn is in flight,
    the call changes no turn row, no usage row, no room and no registry
    entry, and neither does a second call right after it. *)
Theorem chat_abort_effect e userId text mid cid s :
  env_fault e OpUpdateChat = None ->
  let r := chat_abort e userId text mid cid s in
  fst r = Val tt ∧
  body (snd r) = body s ++ [ChunkSend "Success" "OK"] ∧
  (∀ h, threads s !! userId = Some h ->
     usages (snd r) = usages s ∧
     threads (snd r) !! userId = Some (cancel h) ∧
     ∀ k c, chats s !! k = Some c ->
       ∃ c', chats (snd r) !! k = Some c' ∧
         if bool_decide (c_id c = t_messageId h)
         then c_id c' = t_messageId h ∧
              c_response c' = Some text ∧
              messageId (c_options c') = Some mid ∧
              conversationId (c_options c') = Some cid ∧
              prompt_tokens (c_options c') = None ∧
              completion_tokens (c_options c') = None ∧
              total_tokens (c_options c') = None ∧
              estimated (c_options c') = None
         else c' = c) ∧
  (threads s !! userId = None ->
     (chats (snd r) = chats s ∧ usages (snd r) = usages s ∧
      rooms (snd r) = rooms s ∧ threads (snd r) = threads s) ∧
     let r2 := chat_abort e userId text mid cid (snd r) in
     fst r2 = Val tt ∧
     chats (snd r2) = chats s ∧ usages (snd r2) = usages s ∧
     rooms (snd r2) = rooms s ∧ threads (snd r2) = threads s).
Proof.
  intros Hf r.
  destruct (chat_abort_run e userId text mid cid s Hf)
    as (s' & Hrun & Hc & Hu & Hr & Ht & Hb & _).
  subst r. rewrite Hrun. simpl. split; [done|]. split; [done|]. split.
  - intros h Hid. split; [done|]. split.
    { rewrite Ht, lookup_alter_eq, Hid. done. }
    intros k c Hk.
    rewrite Hc, Hid. erewrite update_chat_lookup by done.
    eexists. split; [reflexivity|]. cbn [fmap option_fmap option_map].
    destruct (decide (c_id c = t_messageId h)) as [Heq|Hne].
    + rewrite !bool_decide_eq_true_2 by congruence. cbn. by repeat split.
    + rewrite !bool_decide_eq_false_2 by congruence. done.
  - intros Hnone.
    assert (Hc' : chats s' = chats s)
      by (by rewrite Hc, Hnone, update_chat_absent).
    assert (Ht' : threads s' = threads s) by (by rewrite Ht, alter_id').
    split; [done|].
    destruct (chat_abort_run e userId text mid cid s' Hf)
      as (s2 & Hrun2 & Hc2 & Hu2 & Hr2 & Ht2 & _).
    rewrite Hrun2. simpl.
    rewrite Hc2, Hu2, Hr2, Ht2, Ht', Hnone, update_chat_absent, alter_id' by done.
    by rewrite Hc', Hu, Hr.
Qed.

(** ** The relay of partial events *)

Lemma process_run chat s : process chat s = (Val tt, process_state chat s).
Proof. reflexivity. Qed.

Lemma forEach_process evs s : forEach process evs s = (Val tt, relay evs s).
Proof.
  revert s. induction evs as [|ev evs IH]; intros s; [done|].
  simpl. unfold bind at 1. rewrite process_run. apply IH.
Qed.

Lemma relay_frame evs s :
  rooms (relay evs s) = rooms s ∧ chats (relay evs s) = chats s ∧
  usages (relay evs s) = usages s ∧ threads (relay evs s) = threads s ∧
  ended (relay evs s) = ended s ∧ console (relay evs s) = console s ∧
  trace (relay evs s) = trace s ∧
  v_systemMessage (vars (relay evs s)) = v_systemMessage (vars s) ∧
  v_result (vars (relay evs s)) = v_result (vars s) ∧
  v_message (vars (relay evs s)) = v_message (vars s).
Proof.
  revert s. induction evs as [|ev evs IH]; intros s; [by repeat split|].
  simpl. destruct (IH (process_state ev s)) as (-> & -> & -> & -> & -> & -> & -> & -> & -> & ->).
  by repeat split.
Qed.

Lemma relay_lastResponse evs s :
  v_lastResponse (vars (relay evs s))
  = match last evs with Some ev => Some ev | None => v_lastResponse (vars s) end.
Proof.
  revert s. induction evs as [|ev evs IH]; intros s; [done|].
  change (relay (ev :: evs) s) with (relay evs (process_state ev s)).
  rewrite IH. destruct evs as [|ev' evs]; [reflexivity|].
  rewrite last_cons_cons.
  destruct (last (ev' :: evs)) eqn:E; [reflexivity|].
  by apply last_None in E.
Qed.

Lemma relay_body evs s :
  ∃ l, body (relay evs s) = body s ++ l ∧ Forall is_partial l ∧
       length l = length evs.
Proof.
  revert s. induction evs as [|ev evs IH]; intros s.
  - exists []. by rewrite app_nil_r.
  - simpl. destruct (IH (process_state ev s)) as (l & -> & Hl & Hlen).
    eexists (_ :: l). split; [|split].
    + unfold process_state. simpl. rewrite <- app_assoc. reflexivity.
    + by constructor.
    + simpl. by rewrite Hlen.
Qed.

Lemma relay_rooms evs s : rooms (relay evs s) = rooms s.
Proof. apply relay_frame. Qed.
Lemma relay_chats evs s : chats (relay evs s) = chats s.
Proof. apply relay_frame. Qed.
Lemma relay_usages evs s : usages (relay evs s) = usages s.
Proof. apply relay_frame. Qed.
Lemma relay_threads evs s : threads (relay evs s) = threads s.
Proof. apply relay_frame. Qed.
Lemma relay_ended evs s : ended (relay evs s) = ended s.
Proof. apply relay_frame. Qed.
Lemma relay_console evs s : console (relay evs s) = console s.
Proof. apply relay_frame. Qed.
Lemma relay_trace evs s : trace (relay evs s) = trace s.
Proof. apply relay_frame. Qed.
Lemma relay_systemMessage evs s :
  v_systemMessage (vars (relay evs s)) = v_systemMessage (vars s).
Proof. apply relay_frame. Qed.
Lemma relay_result evs s : v_result (vars (relay evs s)) = v_result (vars s).
Proof. apply relay_frame. Qed.
Lemma relay_message evs s : v_message (vars (relay evs s)) = v_message (vars s).
Proof. apply relay_frame. Qed.

(** ** Symbolic execution of the handlers *)

Ltac unfold_run H :=
  cbv [chat_process try_block finally_block reconcile chatReplyProcess
       getChatRoom getChat insertChat updateChat insertChatUsage getCacheConfig
       getUserById containsSensitiveWords getRandomApiKey deref_data not_success
       data_of
       bind ret throw early_return gets modify try_catch try_finally log settle
       fault deref newObjectId res_write res_end res_send console_log
       set_chats set_usages set_threads set_body set_ended set_console set_trace
       set_vars with_systemMessage with_lastResponse with_result with_message
       with_firstChunk] in H.

Ltac simpl_run H :=
  rewrite ?relay_rooms, ?relay_chats, ?relay_usages, ?relay_threads,
    ?relay_ended, ?relay_console, ?relay_trace, ?relay_systemMessage,
    ?relay_result, ?relay_message, ?relay_lastResponse in H;
  cbn [rooms chats usages threads body ended console trace vars
       v_systemMessage v_lastResponse v_result v_message v_firstChunk
       res_status res_message res_data fst snd negb] in H.

Ltac case_step H :=
  match type of H with
  | context [forEach process ?evs ?s] => rewrite (forEach_process evs s) in H
  | context [match ?x with _ => _ end] =>
      lazymatch x with
      | context [match _ with _ => _ end] => fail
      | _ => destruct x eqn:?
      end
  end.

Ltac exec H := unfold_run H; simpl_run H; repeat (case_step H; simpl_run H).

Ltac leaf H := injection H as <- <-.

Ltac simpl_goal :=
  rewrite ?relay_rooms, ?relay_chats, ?relay_usages, ?relay_threads,
    ?relay_ended, ?relay_console, ?relay_trace, ?relay_systemMessage,
    ?relay_result, ?relay_message, ?relay_lastResponse;
  cbn [rooms chats usages threads body ended console trace vars
       v_systemMessage v_lastResponse v_result v_message v_firstChunk
       res_status res_message res_data fst snd negb].

(** ** The [try] block of /chat-process *)

Lemma try_block_frame e req userId s c s1 :
  try_block e req userId s = (c, s1) ->
  usages s1 = usages s ∧ rooms s1 = rooms s ∧ threads s1 = threads s ∧
  console s1 = console s ∧
  v_systemMessage (vars s1) = v_systemMessage (vars s) ∧
  (c ≠ Return -> ended s1 = ended s).
Proof.
  intros H. exec H; leaf H; simpl_goal; by repeat split.
Qed.

Lemma try_block_regenerate e req userId s c s1 :
  try_block e req userId s = (c, s1) ->
  regenerate req = true ->
  chats s1 = chats s ∧
  (v_message (vars s1) = v_message (vars s) ∨
   v_message (vars s1) = find_chat (roomId req) (uuid req) (chats s)).
Proof.
  intros H Hre. exec H; leaf H; simpl_goal; try discriminate; auto.
Qed.

Lemma try_block_body e req userId s c s1 :
  try_block e req userId s = (c, s1) ->
  ∃ l, body s1 = body s ++ l ∧
    match c with
    | Val _ => ∃ d, last l = Some (ChunkData d)
    | Return => last l = Some (ChunkSend "Fail" sensitive_words) ∧ ended s1 = true
    | Thrown _ => True
    end.
Proof.
  intros H. exec H; leaf H; simpl_goal;
    try (exists []; by rewrite app_nil_r);
    try (eexists [_]; split; [reflexivity | by eauto]);
    match goal with
    | |- context [relay ?evs ?s] =>
        destruct (relay_body evs s) as (l & -> & _ & _)
    end; simpl_goal.
  all: try (exists l; done).
  all: eexists (l ++ [ChunkData _]); rewrite last_snoc, app_assoc; eauto.
Qed.

Lemma find_chat_lookup roomId uuid cs c :
  find_chat roomId uuid cs = Some c ->
  ∃ k, cs !! k = Some c ∧ chat_matches roomId uuid c = true.
Proof.
  unfold find_chat. induction cs as [|x cs IH]; simpl; [done|].
  destruct (chat_matches roomId uuid x) eqn:E.
  - intros [= ->]. by exists 0%nat.
  - intros H. destruct (IH H) as (k & Hk & Hm). by exists (S k).
Qed.

Ltac solve_elem :=
  repeat match goal with
         | H : _ ∈ [] |- _ => by apply elem_of_nil in H
         | H : _ ∈ _ :: _ |- _ =>
             apply elem_of_cons in H as [H | H]; [try discriminate H|]
         end.

Ltac solve_mem :=
  vm_compute; repeat first [apply list_elem_of_here | apply list_elem_of_further].

Lemma try_block_trace e req userId s c s1 :
  try_block e req userId s = (c, s1) ->
  ∃ t, trace s1 = trace s ++ t ∧
       Forall (fun ev => ¬ is_write ev) t ∧
       ∀ o, CallChatReplyProcess o ∈ t -> streamed e s s1 o.
Proof.
  intros H. exec H; leaf H; simpl_goal;
    (eexists; split; [rewrite <- ?app_assoc; reflexivity|]);
    (split; [repeat constructor; by intros []|]);
    intros o Hin; simpl in Hin; solve_elem;
    injection Hin as ->; unfold streamed; simpl_goal; cbn [ro_systemMessage ro_messageId].
  all: repeat split;
    repeat match goal with
           | Heq : ?x = _ |- context [match ?x with _ => _ end] => rewrite Heq
           end; try done.
  all: match goal with
       | Hf : find_chat _ _ _ = Some ?c |- _ =>
           destruct (find_chat_lookup _ _ _ _ Hf) as (k & Hk & _);
           by exists c, k
       | |- context [?cs ++ [?c]] =>
           exists c, (length cs); repeat split; by apply list_lookup_middle
       end.
Qed.

(** ** The [finally] block of /chat-process *)

Lemma finally_block_cases e req userId s c s' :
  finally_block e req userId s = (c, s') ->
  body s' = body s ∧ ended s' = true ∧ rooms s' = rooms s ∧
  threads s' = threads s ∧ (∀ err, c ≠ Thrown err) ∧
  v_message (vars s') = v_message (vars s) ∧
  (∃ r, v_result (vars s') = Some r ∧ res_data r = final_data (vars s)) ∧
  match final_data (vars s), v_message (vars s) with
  | Obj d, Some m =>
      let upd := update_call (regenerate req) m d in
      match env_fault e OpUpdateChat with
      | Some _ =>
          trace s' = trace s ++ [upd] ∧ chats s' = chats s ∧ usages s' = usages s
      | None =>
          chats s' = update_chat (Some (c_id m)) (m_text d) (m_id d)
                       (m_conversationId d) (detail_usage d)
                       (branch_list (regenerate req) m) (chats s) ∧
          match detail_usage d with
          | Some u =>
              match env_objectId e userId with
              | Some err =>
                  trace s' = trace s ++ [upd] ∧ usages s' = usages s ∧
                  console s' = console s ++ [error_message err]
              | None =>
                  trace s' = trace s ++
                    [upd; CallInsertChatUsage userId (roomId req) (c_id m) (m_id d) u] ∧
                  usages s' = match env_fault e OpInsertChatUsage with
                              | Some _ => usages s
                              | None => usages s ++
                                  [mkChatUsage userId (roomId req) (c_id m) (m_id d) u]
                              end
              end
          | None => trace s' = trace s ++ [upd] ∧ usages s' = usages s
          end
      end
  | _, _ => trace s' = trace s ∧ chats s' = chats s ∧ usages s' = usages s
  end.
Proof.
  intros H. exec H; leaf H; simpl_goal.
  all: simplify_eq.
  all: unfold final_data, update_call, branch_list, data_of.
  all: repeat match goal with
           | Heq : negb _ = true |- _ => apply negb_true_iff in Heq
           | Heq : negb _ = false |- _ => apply negb_false_iff in Heq
           end.
  all: repeat match goal with
           | Heq : ?x = _ |- context [?x] => rewrite Heq
           end.
  all: cbn [res_data res_status negb andb].
  all: repeat match goal with
           | Heq : ?x = _ |- context [?x] => rewrite Heq
           end.
  all: try (repeat split; (done || (by rewrite ?app_nil_r) || (by rewrite <- app_assoc) || eauto)).
Qed.

(** ** /chat-process in phases *)

Lemma chat_process_phases e req userId s c s' :
  env_fault e OpGetChatRoom = None ->
  chat_process e req userId (incoming s) = (c, s') ->
  ∃ s0 c1 s1 c2,
    rooms s0 = rooms s ∧ chats s0 = chats s ∧ usages s0 = usages s ∧
    threads s0 = threads s ∧ body s0 = [] ∧ ended s0 = false ∧
    trace s0 = [CallGetChatRoom userId (roomId req)] ∧
    vars s0 = with_systemMessage
                (effective_systemMessage req (find_room userId (roomId req) (rooms s)))
                (init_locals req) ∧
    try_block e req userId s0 = (c1, s1) ∧
    finally_block e req userId (caught c1 s1) = (c2, s') ∧
    c = match c2 with
        | Val _ => match c1 with Thrown _ => Val tt | _ => c1 end
        | _ => c2
        end.
Proof.
  intros Hf H. unfold chat_process in H.
  cbv [getChatRoom bind ret gets modify log fault console_log try_finally try_catch
       res_write set_body] in H.
  rewrite Hf in H.
  cbn [rooms set_trace set_vars incoming] in H.
  unfold effective_systemMessage.
  destruct (find_room userId (roomId req) (rooms s)) as [r|];
    [destruct (isNotEmptyString (r_prompt r))|].
  all: match type of H with
       | context [try_block ?e' ?req' ?u' ?s0] =>
           destruct (try_block e' req' u' s0) as [c1 s1] eqn:Htry;
           exists s0, c1, s1
       end.
  all: destruct c1 as [[]|err|]; cbn [caught set_body];
    match type of H with
    | context [finally_block ?e' ?req' ?u' ?s1] =>
        destruct (finally_block e' req' u' s1) as [c2 s2] eqn:Hfin
    end;
    exists c2; destruct c2 as [[]|err2|]; injection H as <- <-;
    by repeat split.
Qed.


Lemma chat_process_room_fault e req userId s err :
  env_fault e OpGetChatRoom = Some err ->
  ∃ s', post_chat_process e req userId s = (Thrown err, s') ∧
    body s' = [] ∧ ended s' = false ∧ chats s' = chats s ∧ usages s' = usages s ∧
    trace s' = [CallGetChatRoom userId (roomId req)].
Proof.
  intros Hf. unfold post_chat_process, chat_process.
  cbv [getChatRoom bind ret gets modify log fault throw]. rewrite Hf.
  eexists. split; [reflexivity|]. by repeat split.
Qed.

Lemma caught_frame c s :
  rooms (caught c s) = rooms s ∧ chats (caught c s) = chats s ∧
  usages (caught c s) = usages s ∧ trace (caught c s) = trace s ∧
  vars (caught c s) = vars s ∧ ended (caught c s) = ended s ∧
  threads (caught c s) = threads s.
Proof. by destruct c. Qed.

Lemma finally_block_trace e req userId s c s' :
  finally_block e req userId s = (c, s') ->
  ∃ t, trace s' = trace s ++ t ∧ Forall is_write t.
Proof.
  intros H. destruct (finally_block_cases _ _ _ _ _ _ H)
    as (_ & _ & _ & _ & _ & _ & _ & Hc).
  destruct (final_data (vars s)) as [| |d];
    try (exists []; rewrite app_nil_r; split; [apply Hc | constructor]).
  destruct (v_message (vars s)) as [m|];
    try (exists []; rewrite app_nil_r; split; [apply Hc | constructor]).
  cbv zeta in Hc. destruct (env_fault e OpUpdateChat).
  - eexists. split; [apply Hc|]. by repeat constructor.
  - destruct Hc as [_ Hc]. destruct (detail_usage d).
    + destruct (env_objectId e userId).
      * eexists. split; [apply Hc|]. by repeat constructor.
      * eexists. split; [apply Hc|]. by repeat constructor.
    + eexists. split; [apply Hc|]. by repeat constructor.
Qed.

(** ** C8: the system prompt handed to the backend *)

(** C8. Whenever /chat-process drives the completion backend, the system
    prompt it passes is the room's stored prompt if that is a non-empty
    string, and the caller's [systemMessage], unchanged, otherwise. *)
Theorem chat_process_systemMessage e req userId s o :
  CallChatReplyProcess o ∈ trace (snd (post_chat_process e req userId s)) ->
  ro_systemMessage o
  = effective_systemMessage req (find_room userId (roomId req) (rooms s)) ∧
  (∀ r, find_room userId (roomId req) (rooms s) = Some r ->
        isNotEmptyString (r_prompt r) = true ->
        ro_systemMessage o = r_prompt r) ∧
  ((∀ r, find_room userId (roomId req) (rooms s) = Some r ->
         isNotEmptyString (r_prompt r) = false) ->
   ro_systemMessage o = systemMessage req).
Proof.
  intros Hin.
  assert (Heff : ro_systemMessage o
    = effective_systemMessage req (find_room userId (roomId req) (rooms s))).
  { destruct (env_fault e OpGetChatRoom) as [err|] eqn:Hf.
    - destruct (chat_process_room_fault e req userId s err Hf)
        as (s' & Hrun & _ & _ & _ & _ & Ht).
      rewrite Hrun in Hin. simpl in Hin. rewrite Ht in Hin. solve_elem.
    - destruct (post_chat_process e req userId s) as [c s'] eqn:Hrun.
      destruct (chat_process_phases _ _ _ _ _ _ Hf Hrun)
        as (s0 & c1 & s1 & c2 & _ & _ & _ & _ & _ & _ & Ht0 & Hv0 & Htry & Hfin & _).
      destruct (try_block_trace _ _ _ _ _ _ Htry) as (t & Ht & _ & Hstream).
      destruct (finally_block_trace _ _ _ _ _ _ Hfin) as (t2 & Ht2 & Hw).
      destruct (caught_frame c1 s1) as (_ & _ & _ & Htc & _).
      simpl in Hin. rewrite Ht2, Htc, Ht, Ht0 in Hin.
      rewrite !elem_of_app in Hin. destruct Hin as [[Hin|Hin]|Hin].
      + solve_elem.
      + destruct (Hstream o Hin) as (-> & _). by rewrite Hv0.
      + rewrite Forall_forall in Hw. by apply Hw in Hin. }
  split; [done|]. rewrite Heff. unfold effective_systemMessage. split.
  - intros r -> ->. done.
  - intros Hno. destruct (find_room userId (roomId req) (rooms s)) as [r|]; [|done].
    by rewrite (Hno r).
Qed.

(** ** C2: the audit gate *)

(** C2. When the audit policy is enabled (either switch), the user is not an
    Admin and the audit predicate answers true for the prompt, the request
    ends with the sensitive-words failure as its only output; the only calls
    made are the room, configuration and user lookups and the audit itself,
    so no turn row is created or updated, no usage row is written and no
    credential is selected. *)
Theorem chat_process_sensitive e req userId s cfg u :
  env_fault e OpGetChatRoom = None ->
  env_config e = Returns cfg ->
  enabled (auditConfig cfg) || customizeEnabled (auditConfig cfg) = true ->
  env_user e = Returns (Some u) ->
  Admin ∉ roles u ->
  env_audit e = Returns true ->
  let r := post_chat_process e req userId s in
  fst r = Return ∧
  body (snd r) = [ChunkSend "Fail" sensitive_words] ∧
  ended (snd r) = true ∧
  chats (snd r) = chats s ∧
  usages (snd r) = usages s ∧
  trace (snd r) = [CallGetChatRoom userId (roomId req); CallGetCacheConfig;
                   CallGetUserById userId; CallContainsSensitiveWords (prompt req)].
Proof.
  intros Hf Hcfg Hen Hu Hadmin Haudit r.
  assert (Hinc : includes Admin (roles u) = false)
    by (by apply bool_decide_eq_false_2).
  subst r. destruct (post_chat_process e req userId s) as [c s'] eqn:H.
  unfold post_chat_process, incoming in H. unfold_run H.
  rewrite Hf, Hcfg, Hu in H. simpl_run H.
  rewrite Hen, Hinc in H. simpl_run H. rewrite Haudit in H. simpl_run H.
  exec H; leaf H; simpl_goal; by repeat split.
Qed.

(** ** C1: the branch list on regeneration *)

Lemma chat_matches_update_row roomId uuid text id conv u prev c :
  chat_matches roomId uuid (update_row text id conv u prev c)
  = chat_matches roomId uuid c.
Proof. reflexivity. Qed.

Lemma find_chat_update roomId uuid text id conv u prev cs T :
  find_chat roomId uuid cs = Some T ->
  find_chat roomId uuid (update_chat (Some (c_id T)) text id conv u prev cs)
  = Some (update_row text id conv u prev T).
Proof.
  unfold find_chat, update_chat. induction cs as [|x cs IH]; [done|].
  rewrite fmap_cons. cbn [List.find].
  destruct (chat_matches roomId uuid x) eqn:E.
  - intros [= ->]. rewrite bool_decide_eq_true_2 by done.
    by rewrite chat_matches_update_row, E.
  - intros H. case_bool_decide.
    + by rewrite chat_matches_update_row, E, IH.
    + by rewrite E, IH.
Qed.

(** Shared by C1, C4 and C6: a request whose log shows a call to
    [updateChat] went through the [finally] block with a result object and a
    turn in hand. *)
Lemma chat_process_update e req userId s c s' chatId text id conv u prev :
  post_chat_process e req userId s = (c, s') ->
  CallUpdateChat chatId text id conv u prev ∈ trace s' ->
  ∃ s0 c1 s1 m d,
    vars s0 = with_systemMessage
                (effective_systemMessage req (find_room userId (roomId req) (rooms s)))
                (init_locals req) ∧
    chats s0 = chats s ∧ usages s0 = usages s ∧
    trace s0 = [CallGetChatRoom userId (roomId req)] ∧
    try_block e req userId s0 = (c1, s1) ∧
    v_message (vars s1) = Some m ∧
    final_data (vars s1) = Obj d ∧
    (∃ r, v_result (vars s') = Some r ∧ res_data r = Obj d) ∧
    v_message (vars s') = Some m ∧
    CallUpdateChat chatId text id conv u prev = update_call (regenerate req) m d ∧
    match env_fault e OpUpdateChat with
    | Some _ => chats s' = chats s1 ∧ usages s' = usages s
    | None =>
        chats s' = update_chat (Some (c_id m)) (m_text d) (m_id d)
                     (m_conversationId d) (detail_usage d)
                     (branch_list (regenerate req) m) (chats s1) ∧
        usages s' = usages s ++
          match detail_usage d, env_objectId e userId, env_fault e OpInsertChatUsage with
          | Some u, None, None => [mkChatUsage userId (roomId req) (c_id m) (m_id d) u]
          | _, _, _ => []
          end ∧
        (∀ u err, detail_usage d = Some u -> env_objectId e userId = Some err ->
                  last (console s') = Some (error_message err) ∧
                  ∀ uid room cid mid us,
                    CallInsertChatUsage uid room cid mid us ∉ trace s')
    end.
Proof.
  intros Hrun Hin.
  destruct (env_fault e OpGetChatRoom) as [err|] eqn:Hf.
  { destruct (chat_process_room_fault e req userId s err Hf)
      as (s2 & Hrun' & _ & _ & _ & _ & Ht).
    rewrite Hrun in Hrun'. injection Hrun' as _ <-.
    rewrite Ht in Hin. solve_elem. }
  destruct (chat_process_phases _ _ _ _ _ _ Hf Hrun)
    as (s0 & c1 & s1 & c2 & _ & Hc0 & Hu0 & _ & _ & _ & Ht0 & Hv0 & Htry & Hfin & _).
  destruct (try_block_trace _ _ _ _ _ _ Htry) as (t & Ht & Hnw & _).
  destruct (try_block_frame _ _ _ _ _ _ Htry) as (Hu1 & _).
  destruct (caught_frame c1 s1) as (_ & Hcc & Hcu & Hct & Hcv & _).
  destruct (finally_block_cases _ _ _ _ _ _ Hfin)
    as (_ & _ & _ & _ & _ & Hm' & Hr' & Hc).
  rewrite Hcv, Hct, Hcc, Hcu in *.
  assert (Hpre : ¬ CallUpdateChat chatId text id conv u prev ∈ trace s1).
  { rewrite Ht, Ht0. intros Hi. apply elem_of_cons in Hi as [Hi|Hi]; [done|].
    rewrite Forall_forall in Hnw. by apply Hnw in Hi. }
  exists s0, c1, s1.
  destruct (final_data (vars s1)) as [| |d] eqn:Hd;
    try (destruct Hc as (Hc & _); rewrite Hc in Hin; done).
  destruct (v_message (vars s1)) as [m|] eqn:Hm;
    try (destruct Hc as (Hc & _); rewrite Hc in Hin; done).
  exists m, d. cbv zeta in Hc.
  repeat (split; [done|]).
  destruct (env_fault e OpUpdateChat) as [err|].
  - destruct Hc as (Hc & Hc2 & Hc3). rewrite Hc in Hin.
    apply elem_of_app in Hin as [Hin|Hin]; [done|]. solve_elem.
    split; [done|]. split; [done|]. congruence.
  - destruct Hc as (Hc & Hc2).
    destruct (detail_usage d) as [us|] eqn:Hus.
    + destruct (env_objectId e userId) as [bad|] eqn:Hoid.
      * destruct Hc2 as (Hc2 & Hc3 & Hc4).
        pose proof Hin as Hin'. rewrite Hc2 in Hin'.
        apply elem_of_app in Hin' as [Hin'|Hin']; [done|]. solve_elem.
        split; [done|]. split; [done|]. split.
        { by rewrite Hc3, Hu1, Hu0, app_nil_r. }
        intros u' err [= <-] [= <-]. split.
        { by rewrite Hc4, last_snoc. }
        intros uid room cid mid us' Hi. rewrite Hc2, Ht, Ht0 in Hi.
        apply elem_of_app in Hi as [Hi|Hi]; [|solve_elem].
        apply elem_of_cons in Hi as [Hi|Hi]; [done|].
        rewrite Forall_forall in Hnw. by apply Hnw in Hi.
      * destruct Hc2 as (Hc2 & Hc3).
        rewrite Hc2 in Hin. apply elem_of_app in Hin as [Hin|Hin]; [done|].
        solve_elem. split; [done|]. split; [done|]. split; [|done].
        rewrite Hc3, Hu1, Hu0.
        by destruct (env_fault e OpInsertChatUsage); rewrite ?app_nil_r.
    + destruct Hc2 as (Hc2 & Hc3).
      rewrite Hc2 in Hin. apply elem_of_app in Hin as [Hin|Hin]; [done|].
      solve_elem. split; [done|]. split; [done|]. split; [|done].
      rewrite Hc3, Hu1, Hu0, app_nil_r. by destruct (env_objectId e userId).
Qed.

(** C1 (as amended). A regenerate request on an existing turn [T] whose
    finalization reaches the store overwrites [T]'s primary response with
    the new text.  When [T]'s stored options carry a non-empty backend
    message id, the same store update extends [T]'s branch list by exactly
    one entry at the end: [T]'s response text and options as they were
    before the request; earlier entries keep their place and content.  When
    they carry no backend message id, the update passes no branch list and
    [T]'s branch list stays as it was: no entry is appended. *)
Theorem regenerate_appends_branch e req userId s T chatId text id conv u prev :
  regenerate req = true ->
  find_chat (roomId req) (uuid req) (chats s) = Some T ->
  env_fault e OpUpdateChat = None ->
  let s' := snd (post_chat_process e req userId s) in
  CallUpdateChat chatId text id conv u prev ∈ trace s' ->
  ∃ T',
    find_chat (roomId req) (uuid req) (chats s') = Some T' ∧
    c_id T' = c_id T ∧
    c_response T' = text ∧
    (truthy_string (messageId (c_options T)) = true ->
       prev = Some (default [] (c_previousResponse T) ++ [branch_entry T]) ∧
       c_previousResponse T'
       = Some (default [] (c_previousResponse T) ++ [branch_entry T]) ∧
       length (default [] (c_previousResponse T'))
       = S (length (default [] (c_previousResponse T))) ∧
       (∀ i p, default [] (c_previousResponse T) !! i = Some p ->
               default [] (c_previousResponse T') !! i = Some p) ∧
       last (default [] (c_previousResponse T'))
       = Some (mkPrevious (c_response T) (c_options T))) ∧
    (truthy_string (messageId (c_options T)) = false ->
       prev = None ∧
       c_previousResponse T' = c_previousResponse T).
Proof.
  intros Hre Hfind Hfu s' Hin. subst s'.
  destruct (post_chat_process e req userId s) as [c s'] eqn:Hrun. simpl in *.
  destruct (chat_process_update _ _ _ _ _ _ _ _ _ _ _ _ Hrun Hin)
    as (s0 & c1 & s1 & m & d & Hv0 & Hc0 & _ & _ & Htry & Hm & _ & _ & _ & Hcall & Hc).
  rewrite Hfu in Hc. destruct Hc as (Hc & _).
  destruct (try_block_regenerate _ _ _ _ _ _ Htry Hre) as (Hc1 & Hmsg).
  assert (m = T) as ->.
  { rewrite Hm, Hv0, Hc0, Hfind in Hmsg. destruct Hmsg as [Hmsg|Hmsg]; [done|].
    by injection Hmsg. }
  unfold update_call in Hcall. injection Hcall as -> -> -> -> -> ->.
  rewrite Hc, Hc1, Hc0.
  eexists. split; [by apply find_chat_update|].
  split; [done|]. split; [done|].
  unfold branch_list. rewrite Hre. cbn [andb]. split; intros Htruthy; rewrite Htruthy.
  - cbn [update_row c_id c_response c_previousResponse from_option id].
    repeat split.
    + rewrite length_app. simpl. lia.
    + intros i p Hi. by apply lookup_app_l_Some.
    + by rewrite last_snoc.
  - done.
Qed.

(** ** C4: a backend failure after partial output *)

Lemma chat_process_after_stream e req userId s c s' o :
  post_chat_process e req userId s = (c, s') ->
  CallChatReplyProcess o ∈ trace s' ->
  ∃ c1 s1 c2 m k,
    finally_block e req userId (caught c1 s1) = (c2, s') ∧
    v_message (vars s1) = Some m ∧ chats s1 !! k = Some m ∧
    ro_messageId o = c_id m ∧
    v_lastResponse (vars s1) = last (env_events e) ∧
    v_result (vars s1)
    = match env_reply e with
      | Returns r => Some (of_response r)
      | Throws _ => None
      end.
Proof.
  intros Hrun Hin.
  destruct (env_fault e OpGetChatRoom) as [err|] eqn:Hf.
  { destruct (chat_process_room_fault e req userId s err Hf)
      as (s2 & Hrun' & _ & _ & _ & _ & Ht).
    rewrite Hrun in Hrun'. injection Hrun' as _ <-.
    rewrite Ht in Hin. solve_elem. }
  destruct (chat_process_phases _ _ _ _ _ _ Hf Hrun)
    as (s0 & c1 & s1 & c2 & _ & _ & _ & _ & _ & _ & Ht0 & Hv0 & Htry & Hfin & _).
  destruct (try_block_trace _ _ _ _ _ _ Htry) as (t & Ht & _ & Hstream).
  destruct (finally_block_trace _ _ _ _ _ _ Hfin) as (t2 & Ht2 & Hw).
  destruct (caught_frame c1 s1) as (_ & _ & _ & Htc & _).
  rewrite Ht2, Htc, Ht, Ht0 in Hin.
  rewrite !elem_of_app in Hin. destruct Hin as [[Hin|Hin]|Hin].
  - solve_elem.
  - destruct (Hstream o Hin) as (_ & (m & k & Hm & Hk & Hid) & Hl & Hr).
    exists c1, s1, c2, m, k. repeat (split; [done|]).
    rewrite Hl, Hr, Hv0. split; [by destruct (last (env_events e))|done].
  - rewrite Forall_forall in Hw. by apply Hw in Hin.
Qed.

Lemma finally_block_persists e req userId s c s' m k d :
  finally_block e req userId s = (c, s') ->
  env_fault e OpUpdateChat = None ->
  v_message (vars s) = Some m ->
  chats s !! k = Some m ->
  final_data (vars s) = Obj d ->
  update_call (regenerate req) m d ∈ trace s' ∧
  ∃ row, chats s' !! k = Some row ∧ c_id row = c_id m ∧ c_response row = m_text d.
Proof.
  intros Hfin Hfu Hm Hk Hd.
  destruct (finally_block_cases _ _ _ _ _ _ Hfin)
    as (_ & _ & _ & _ & _ & _ & _ & Hc).
  rewrite Hd, Hm, Hfu in Hc. cbv zeta in Hc. destruct Hc as (Hc & Ht). split.
  - destruct (detail_usage d); [destruct (env_objectId e userId)|];
      destruct Ht as (-> & _); set_solver.
  - rewrite Hc. erewrite update_chat_lookup by done.
    rewrite bool_decide_eq_true_2 by done. by eexists.
Qed.

(** C4 (as amended). When the backend was driven and emitted at least one
    partial event, and the store accepts the update: if the backend then
    fails by throwing, the turn row is updated and its response text is the
    text of the last partial event; if it fails by returning a result whose
    status is not Success, the turn row is updated and its response text is
    that result's message. *)
Theorem backend_failure_persisted e req userId s o ev :
  let s' := snd (post_chat_process e req userId s) in
  CallChatReplyProcess o ∈ trace s' ->
  last (env_events e) = Some ev ->
  env_fault e OpUpdateChat = None ->
  (∀ err, env_reply e = Throws err ->
     ∃ k row, chats s' !! k = Some row ∧ c_id row = ro_messageId o ∧
              c_response row = m_text ev) ∧
  (∀ r, env_reply e = Returns r -> status r ≠ "Success" ->
     ∃ k row, chats s' !! k = Some row ∧ c_id row = ro_messageId o ∧
              c_response row = message r).
Proof.
  intros s' Hin Hlast Hfu. subst s'.
  destruct (post_chat_process e req userId s) as [c s'] eqn:Hrun. simpl in *.
  destruct (chat_process_after_stream _ _ _ _ _ _ _ Hrun Hin)
    as (c1 & s1 & c2 & m & k & Hfin & Hm & Hk & Hid & Hl & Hr).
  destruct (caught_frame c1 s1) as (_ & Hcc & _ & _ & Hcv & _).
  rewrite <- Hcv in Hm, Hl, Hr. rewrite <- Hcc in Hk. rewrite Hid.
  split.
  - intros err Herr. rewrite Herr in Hr.
    assert (Hd : final_data (vars (caught c1 s1)) = Obj ev).
    { unfold final_data. by rewrite Hr, Hl, Hlast. }
    destruct (finally_block_persists _ _ _ _ _ _ _ _ _ Hfin Hfu Hm Hk Hd)
      as (_ & row & ? & ? & ?).
    by exists k, row.
  - intros r Hret Hst. rewrite Hret in Hr.
    assert (Hd : final_data (vars (caught c1 s1))
                 = Obj (mkMessage None None (message r) None)).
    { unfold final_data. rewrite Hr. cbn [of_response res_status res_message].
      rewrite bool_decide_eq_false_2; [done|]. intros [= ?]. done. }
    destruct (finally_block_persists _ _ _ _ _ _ _ _ _ Hfin Hfu Hm Hk Hd)
      as (_ & row & ? & ? & ?).
    by exists k, row.
Qed.

(** ** C6: usage rows *)

Lemma finally_block_usages e req userId s c s' :
  finally_block e req userId s = (c, s') ->
  ∃ l, usages s' = usages s ++ l ∧ (length l ≤ 1)%nat.
Proof.
  intros H. destruct (finally_block_cases _ _ _ _ _ _ H)
    as (_ & _ & _ & _ & _ & _ & _ & Hc).
  destruct (final_data (vars s)) as [| |d];
    try (exists []; rewrite app_nil_r; split; [apply Hc | simpl; lia]).
  destruct (v_message (vars s)) as [m|];
    try (exists []; rewrite app_nil_r; split; [apply Hc | simpl; lia]).
  cbv zeta in Hc. destruct (env_fault e OpUpdateChat).
  - exists []; rewrite app_nil_r; split; [apply Hc | simpl; lia].
  - destruct Hc as [_ Hc]. destruct (detail_usage d).
    + destruct (env_objectId e userId).
      * exists []; rewrite app_nil_r; split; [apply Hc | simpl; lia].
      * destruct Hc as [_ ->]. destruct (env_fault e OpInsertChatUsage).
        -- exists []. rewrite app_nil_r. split; [done | simpl; lia].
        -- eexists [_]. split; [done | simpl; lia].
    + exists []; rewrite app_nil_r; split; [apply Hc | simpl; lia].
Qed.

(** C6 (as amended). A request adds at most one usage row.  For a turn whose
    finalization reaches the store, with the store accepting both writes and
    the driver making an ObjectId of the user id, exactly one usage row
    (user, room, turn, backend message id, the usage counters) is added iff
    the final result carries a usage object, whatever its counters are, and
    none is added when it carries none.  When the driver throws on the user
    id, no row is added; if the result carries a usage object the error is
    what the console shows last, and insertChatUsage is not called. *)
Theorem usage_row_iff_usage_object e req userId s :
  let s' := snd (post_chat_process e req userId s) in
  (∃ l, usages s' = usages s ++ l ∧ (length l ≤ 1)%nat) ∧
  ∀ chatId text id conv u prev,
    env_fault e OpUpdateChat = None ->
    env_fault e OpInsertChatUsage = None ->
    CallUpdateChat chatId text id conv u prev ∈ trace s' ->
    ∃ r d m,
      v_result (vars s') = Some r ∧ res_data r = Obj d ∧
      v_message (vars s') = Some m ∧ detail_usage d = u ∧
      match env_objectId e userId with
      | None =>
          usages s' = usages s ++
            match u with
            | Some us => [mkChatUsage userId (roomId req) (c_id m) (m_id d) us]
            | None => []
            end
      | Some err =>
          usages s' = usages s ∧
          (∀ us, u = Some us ->
                 last (console s') = Some (error_message err) ∧
                 ∀ uid room cid mid us',
                   CallInsertChatUsage uid room cid mid us' ∉ trace s')
      end.
Proof.
  intros s'. subst s'.
  destruct (post_chat_process e req userId s) as [c s'] eqn:Hrun. simpl. split.
  - destruct (env_fault e OpGetChatRoom) as [err|] eqn:Hf.
    + destruct (chat_process_room_fault e req userId s err Hf)
        as (s2 & Hrun' & _ & _ & _ & Hu & _).
      rewrite Hrun in Hrun'. injection Hrun' as _ <-.
      exists []. rewrite app_nil_r. split; [done | simpl; lia].
    + destruct (chat_process_phases _ _ _ _ _ _ Hf Hrun)
        as (s0 & c1 & s1 & c2 & _ & _ & Hu0 & _ & _ & _ & _ & _ & Htry & Hfin & _).
      destruct (try_block_frame _ _ _ _ _ _ Htry) as (Hu1 & _).
      destruct (caught_frame c1 s1) as (_ & _ & Hcu & _).
      destruct (finally_block_usages _ _ _ _ _ _ Hfin) as (l & Hl & Hlen).
      exists l. split; [|done]. by rewrite Hl, Hcu, Hu1, Hu0.
  - intros chatId text id conv u prev Hfu Hfi Hin.
    destruct (chat_process_update _ _ _ _ _ _ _ _ _ _ _ _ Hrun Hin)
      as (s0 & c1 & s1 & m & d & _ & _ & _ & _ & _ & _ & _ & (r & Hr & Hd)
          & Hm & Hcall & Hc).
    rewrite Hfu, Hfi in Hc. destruct Hc as (_ & Hc & Hbad).
    unfold update_call in Hcall. injection Hcall as -> -> -> -> -> ->.
    exists r, d, m. repeat (split; [done|]).
    destruct (env_objectId e userId) as [err|].
    + split.
      * rewrite Hc. destruct (detail_usage d); by rewrite app_nil_r.
      * intros us Hus. by apply (Hbad us err).
    + rewrite Hc. by destruct (detail_usage d).
Qed.

(** ** The end-to-end scenarios of the spec *)

Example scenario_A_persisted :
  ∃ row, chats after_A = [row] ∧
    c_response row = Some "2+2=4" ∧
    total_tokens (c_options row) = Some 8%Z ∧
    c_previousResponse row = None ∧
    length (usages after_A) = 1%nat.
Proof. eexists. by vm_compute. Qed.

Example scenario_B_persisted :
  ∃ row old, chats after_B = [row] ∧
    c_response row = Some "The answer is 4." ∧
    c_previousResponse row = Some [old] ∧
    p_response old = Some "2+2=4" ∧
    messageId (p_options old) = Some "m1".
Proof. do 2 eexists. by vm_compute. Qed.

Example scenario_C_persisted :
  let s := set_threads (fun _ => {[ alice := mkHandle 1 false ]}) (server [maths] [unanswered]) in
  ∃ row, chats (snd (chat_abort (backend [] (Throws (Error None))) alice
                       "stopped" "m1" "c1" s)) = [row] ∧
    c_response row = Some "stopped" ∧
    messageId (c_options row) = Some "m1" ∧
    total_tokens (c_options row) = None.
Proof. eexists. by vm_compute. Qed.

(** ** C7: the last chunk of the response *)

(** When the room lookup answers, every path of /chat-process ends the
    response, and the last thing written is a final chunk: the result, an
    error-shaped chunk, or the sensitive-words failure. *)
Lemma chat_process_terminal e req userId s :
  env_fault e OpGetChatRoom = None ->
  let r := post_chat_process e req userId s in
  ended (snd r) = true ∧ (∀ err, fst r ≠ Thrown err) ∧
  ∃ l c, body (snd r) = l ++ [c] ∧ terminal c.
Proof.
  intros Hf r. subst r.
  destruct (post_chat_process e req userId s) as [c s'] eqn:Hrun. simpl.
  destruct (chat_process_phases _ _ _ _ _ _ Hf Hrun)
    as (s0 & c1 & s1 & c2 & _ & _ & _ & _ & Hb0 & _ & _ & _ & Htry & Hfin & Hc).
  destruct (finally_block_cases _ _ _ _ _ _ Hfin)
    as (Hb & He & _ & _ & Hnt & _).
  destruct (try_block_body _ _ _ _ _ _ Htry) as (l & Hl & Hlast).
  rewrite Hb0 in Hl. simpl in Hl.
  split; [done|]. split.
  - intros err ->. destruct c2 as [[]|err2|]; [|by eapply Hnt|done].
    by destruct c1.
  - rewrite Hb. destruct c1 as [[]|err|]; cbn [caught set_body body].
    + destruct Hlast as (d & Hd). apply last_Some in Hd as (l' & ->).
      exists l', (ChunkData d). by rewrite Hl.
    + eexists l, _. by rewrite Hl.
    + destruct Hlast as (Hd & _). apply last_Some in Hd as (l' & ->).
      eexists l', _. by rewrite Hl.
Qed.

(** C7. The claim that every request gets a final chunk fails when the store
    rejects the room lookup, which the handler awaits before its [try]: the
    handler's promise rejects, nothing was written and the response was not
    ended. *)
Theorem chat_process_store_down_no_reply :
  let r := post_chat_process store_down (ask 1 false) alice (server [maths] []) in
  fst r = Thrown (Error (Some "connection closed")) ∧
  body (snd r) = [] ∧
  ended (snd r) = false.
Proof. by vm_compute. Qed.

(** ** C3: a room the caller does not own *)

(** C3. The claim that a request to a room of somebody else fails at once
    and without side effects does not hold of the handler: user [alice] posts to
    room 9, which belongs to "v".  The lookup finds no room, the handler logs
    it and goes on: a turn row is inserted in room 9, a credential is
    selected, the backend is driven, the row is updated and a usage row
    written, and the reply is the normal final chunk. *)
Theorem chat_process_foreign_room_proceeds :
  let r := post_chat_process scenario_A (ask 9 false) alice
             (server [maths; terse; theirs] []) in
  find_room alice 9 [maths; terse; theirs] = None ∧
  fst r = Val tt ∧
  console (snd r) = [Some "Unable to get chat room"] ∧
  (∃ row, chats (snd r) = [row] ∧ c_roomId row = 9%Z ∧
          c_response row = Some "2+2=4") ∧
  length (usages (snd r)) = 1%nat ∧
  CallInsertChat 7 "2+2?" 9 ∈ trace (snd r) ∧
  CallGetRandomApiKey "gpt-3.5-turbo" ∈ trace (snd r) ∧
  (∃ o, CallChatReplyProcess o ∈ trace (snd r)) ∧
  last (body (snd r)) = Some (ChunkData (Some (answer "m1" "2+2=4" (Some usage_A)))).
Proof.
  vm_compute. repeat split; try (eexists; repeat split).
  all: repeat first [apply list_elem_of_here | apply list_elem_of_further].
Qed.

(** ** Counterexamples to C1, C4 and C6 as stated *)

(** C1 as stated fails: a regenerate request on an existing turn whose
    options hold no backend message id completes finalization (the store is
    updated and the response overwritten) and appends no branch entry. *)
Lemma regenerate_without_message_id_keeps_branches :
  let s := server [maths] [unanswered] in
  let s' := snd (post_chat_process scenario_B (ask 1 true) alice s) in
  regenerate (ask 1 true) = true ∧
  find_chat 1 7 (chats s) = Some unanswered ∧
  CallUpdateChat (Some 1%nat) (Some "The answer is 4.") (Some "m2") (Some "c1")
                 None None ∈ trace s' ∧
  ∃ T', find_chat 1 7 (chats s') = Some T' ∧
    c_response T' = Some "The answer is 4." ∧
    c_previousResponse T' = None ∧
    length (default [] (c_previousResponse T'))
    ≠ S (length (default [] (c_previousResponse unanswered))).
Proof.
  split; [done|]. split; [done|]. split; [solve_mem|].
  eexists. split; [by vm_compute|]. by vm_compute.
Qed.

(** C4 as stated fails: the backend relays one partial event and then fails
    by returning a result whose status is not Success; the row is updated
    with the result's message, not with the partial text. *)
Lemma failure_by_value_persists_message :
  let s' := snd (post_chat_process failed_by_value (ask 1 false) alice
                   (server [maths] [])) in
  last (env_events failed_by_value) = Some (partial "2+") ∧
  (∃ o, CallChatReplyProcess o ∈ trace s') ∧
  ∃ row, chats s' = [row] ∧
    c_response row = Some "rate limited" ∧
    c_response row ≠ m_text (partial "2+").
Proof.
  split; [done|]. split.
  - eexists. solve_mem.
  - eexists. split; [by vm_compute|]. by vm_compute.
Qed.

(** C6 as stated fails: the final result carries a usage object whose three
    counters are zero, and a usage row is inserted all the same. *)
Lemma zero_usage_row_inserted :
  let s' := snd (post_chat_process zero_usage (ask 1 false) alice
                   (server [maths] [])) in
  (∃ r d, v_result (vars s') = Some r ∧ res_data r = Obj d ∧
          detail_usage d = Some usage_zero) ∧
  u_prompt_tokens usage_zero = 0%Z ∧ u_completion_tokens usage_zero = 0%Z ∧
  u_total_tokens usage_zero = 0%Z ∧
  usages s' = [mkChatUsage alice 1 1 (Some "m1") usage_zero].
Proof.
  split; [|by vm_compute]. do 2 eexists. by vm_compute.
Qed.

(** ** The statements above at concrete inputs *)

Lemma regenerate_appends_branch_witness :
  (let s' := snd (post_chat_process third_attempt (ask 1 true) alice after_B) in
   ∃ T',
     find_chat 1 7 (chats s') = Some T' ∧
     c_id T' = c_id turn_B ∧
     c_response T' = Some "Four." ∧
     c_previousResponse T'
     = Some (default [] (c_previousResponse turn_B) ++ [branch_entry turn_B]) ∧
     length (default [] (c_previousResponse T')) = 2%nat ∧
     default [] (c_previousResponse T') !! 0%nat
     = Some (mkPrevious (Some "2+2=4") (c_options turn_A)) ∧
     last (default [] (c_previousResponse T'))
     = Some (mkPrevious (c_response turn_B) (c_options turn_B))) ∧
  (let s' := snd (post_chat_process scenario_B (ask 1 true) alice
                    (server [maths] [unanswered])) in
   ∃ T',
     find_chat 1 7 (chats s') = Some T' ∧
     c_id T' = c_id unanswered ∧
     c_response T' = Some "The answer is 4." ∧
     c_previousResponse T' = c_previousResponse unanswered).
Proof.
  split.
  - assert (Hin : CallUpdateChat (Some 1%nat) (Some "Four.") (Some "m3") (Some "c1")
                    None (Some [branch_entry turn_A; branch_entry turn_B])
                  ∈ trace (snd (post_chat_process third_attempt (ask 1 true) alice
                                  after_B)))
      by solve_mem.
    assert (Hfind : find_chat (roomId (ask 1 true)) (uuid (ask 1 true)) (chats after_B)
                    = Some turn_B) by (vm_compute; reflexivity).
    destruct (regenerate_appends_branch third_attempt (ask 1 true) alice after_B turn_B
                _ _ _ _ _ _ eq_refl Hfind eq_refl Hin)
      as (T' & Hf & Hid & Hr & Hyes & _).
    destruct (Hyes eq_refl) as (_ & Hp & Hl & Hk & Hlast).
    exists T'. repeat split; try done. by apply Hk.
  - assert (Hin : CallUpdateChat (Some 1%nat) (Some "The answer is 4.") (Some "m2")
                    (Some "c1") None None
                  ∈ trace (snd (post_chat_process scenario_B (ask 1 true) alice
                                  (server [maths] [unanswered]))))
      by solve_mem.
    destruct (regenerate_appends_branch scenario_B (ask 1 true) alice
                (server [maths] [unanswered]) unanswered
                _ _ _ _ _ _ eq_refl eq_refl eq_refl Hin)
      as (T' & Hf & Hid & Hr & _ & Hno).
    destruct (Hno eq_refl) as (_ & Hp).
    exists T'. by repeat split.
Defined.

Lemma chat_process_sensitive_witness :
  let r := post_chat_process audited (ask 1 false) alice (server [maths] [turn_A]) in
  fst r = Return ∧
  body (snd r) = [ChunkSend "Fail" sensitive_words] ∧
  ended (snd r) = true ∧
  chats (snd r) = [turn_A] ∧
  usages (snd r) = [] ∧
  trace (snd r) = [CallGetChatRoom alice 1; CallGetCacheConfig;
                   CallGetUserById alice; CallContainsSensitiveWords "2+2?"].
Proof.
  apply (chat_process_sensitive audited (ask 1 false) alice (server [maths] [turn_A])
           (mkConfig (mkAudit true false)) (mkUser [User] "gpt-3.5-turbo")).
  - reflexivity.
  - reflexivity.
  - reflexivity.
  - reflexivity.
  - intros H. apply list_elem_of_singleton in H. discriminate H.
  - reflexivity.
Defined.

Lemma backend_failure_persisted_witness :
  let s' := snd (post_chat_process failed_by_throw (ask 1 false) alice
                   (server [maths] [])) in
  (∀ err, env_reply failed_by_throw = Throws err ->
     ∃ k row, chats s' !! k = Some row ∧ c_id row = 1%nat ∧
              c_response row = Some "2+") ∧
  (∀ r, env_reply failed_by_throw = Returns r -> status r ≠ "Success" ->
     ∃ k row, chats s' !! k = Some row ∧ c_id row = 1%nat ∧
              c_response row = message r).
Proof.
  apply (backend_failure_persisted failed_by_throw (ask 1 false) alice
           (server [maths] [])
           (mkReqOptions "2+2?" no_options (Some "you are a calculator") None None
                         "gpt-3.5-turbo" (Some (mkKey "sk")) alice 1)
           (partial "2+")).
  - solve_mem.
  - reflexivity.
  - reflexivity.
Defined.

Lemma chat_abort_effect_witness :
  (let s := set_threads (fun _ => {[ alice := mkHandle 1 false ]})
                        (server [maths] [unanswered]) in
   let r := chat_abort scenario_B alice "stopped" "m1" "c1" s in
   fst r = Val tt ∧
   body (snd r) = [ChunkSend "Success" "OK"] ∧
   (∃ c', chats (snd r) !! 0%nat = Some c' ∧
          c_response c' = Some "stopped" ∧
          messageId (c_options c') = Some "m1" ∧
          total_tokens (c_options c') = None)) ∧
  (let s := server [maths] [unanswered] in
   let r := chat_abort scenario_B alice "stopped" "m1" "c1" s in
   let r2 := chat_abort scenario_B alice "stopped" "m1" "c1" (snd r) in
   fst r = Val tt ∧ chats (snd r) = [unanswered] ∧
   fst r2 = Val tt ∧ chats (snd r2) = [unanswered] ∧ usages (snd r2) = []).
Proof.
  split.
  - pose proof (chat_abort_effect scenario_B alice "stopped" "m1" "c1"
                  (set_threads (fun _ => {[ alice := mkHandle 1 false ]})
                               (server [maths] [unanswered]))
                  eq_refl) as (Hv & Hb & Hflight & _).
    split; [exact Hv|]. split; [exact Hb|].
    destruct (Hflight (mkHandle 1 false) eq_refl) as (_ & _ & Hrows).
    destruct (Hrows 0%nat unanswered eq_refl) as (c' & Hc' & Hfields).
    exists c'. split; [exact Hc'|].
    destruct Hfields as (_ & Hr & Hm & _ & _ & _ & Ht & _).
    by repeat split.
  - pose proof (chat_abort_effect scenario_B alice "stopped" "m1" "c1"
                  (server [maths] [unanswered]) eq_refl) as (Hv & _ & _ & Hidle).
    destruct (Hidle eq_refl) as ((Hc & _) & Hv2 & Hc2 & Hu2 & _).
    by repeat split.
Defined.

Lemma usage_row_iff_usage_object_witness :
  (let s' := snd (post_chat_process zero_usage (ask 1 false) alice
                    (server [maths] [])) in
   ∃ r d m,
     v_result (vars s') = Some r ∧ res_data r = Obj d ∧
     v_message (vars s') = Some m ∧ detail_usage d = Some usage_zero ∧
     usages s' = [] ++ [mkChatUsage alice 1 (c_id m) (m_id d) usage_zero]) ∧
  (let s' := snd (post_chat_process zero_usage (ask 1 false) "guest"
                    (server [maths] [])) in
   object_id_string "guest" = false ∧
   usages s' = [] ∧
   last (console s')
   = Some (Some "Argument passed in must be a string of 12 bytes or a string of 24 hex characters or an integer") ∧
   ∀ uid room cid mid us, CallInsertChatUsage uid room cid mid us ∉ trace s').
Proof.
  split.
  - apply (proj2 (usage_row_iff_usage_object zero_usage (ask 1 false) alice
                    (server [maths] []))
             (Some 1%nat) (Some "2+2=4") (Some "m1") (Some "c1") (Some usage_zero) None).
    + reflexivity.
    + reflexivity.
    + solve_mem.
  - assert (Hin : CallUpdateChat (Some 1%nat) (Some "2+2=4") (Some "m1") (Some "c1")
                    (Some usage_zero) None
                  ∈ trace (snd (post_chat_process zero_usage (ask 1 false) "guest"
                                  (server [maths] []))))
      by solve_mem.
    destruct (proj2 (usage_row_iff_usage_object zero_usage (ask 1 false) "guest"
                       (server [maths] []))
                _ _ _ _ _ _ eq_refl eq_refl Hin)
      as (r & d & m & _ & _ & _ & _ & Hu & Hbad).
    destruct (Hbad usage_zero eq_refl) as (Hlog & Hnone).
    repeat split; done.
Defined.

Lemma chat_process_systemMessage_witness :
  let o := mkReqOptions "2+2?" no_options (Some "be brief") None None
                        "gpt-3.5-turbo" (Some (mkKey "sk")) alice 1 in
  ro_systemMessage o = effective_systemMessage (ask 2 false) (Some terse) ∧
  (∀ r, Some terse = Some r -> isNotEmptyString (r_prompt r) = true ->
        ro_systemMessage o = r_prompt r) ∧
  ((∀ r, Some terse = Some r -> isNotEmptyString (r_prompt r) = false) ->
   ro_systemMessage o = systemMessage (ask 2 false)).
Proof.
  apply (chat_process_systemMessage scenario_A (ask 2 false) alice
           (server [maths; terse; theirs] [])).
  solve_mem.
Defined.


Lemma chat_history_turn_entries_witness :
  ∃ added,
    fst (chat_history scenario_A alice 1 (Returns ([] ++ turn_A :: [])) after_A)
    = Val (mkReply "Success" None
             (PList (flat_map turn_items [] ++ added ++ flat_map turn_items []))) ∧
    ((∃ i, i ∈ added ∧ h_inversion i = true) ↔ c_status turn_A ≠ InversionDeleted) ∧
    ((∃ i, i ∈ added ∧ h_inversion i = false) ↔ c_status turn_A ≠ ResponseDeleted) ∧
    (∀ i, i ∈ added -> h_inversion i = true ->
          h_uuid i = c_uuid turn_A ∧ h_text i = Some (c_prompt turn_A)) ∧
    (∀ i, i ∈ added -> h_inversion i = false ->
          h_uuid i = c_uuid turn_A ∧ h_text i = c_response turn_A ∧
          (is_Some (h_usage i) ↔
           ∃ n, completion_tokens (c_options turn_A) = Some n ∧ n ≠ 0%Z)).
Proof.
  apply (chat_history_turn_entries scenario_A alice 1 maths after_A [] turn_A []).
  - discriminate.
  - reflexivity.
  - by vm_compute.
Defined.


(** ** More on /chat-process *)

Lemma relay_body_chunks evs s :
  body (relay evs s) = body s ++ relay_chunks (v_firstChunk (vars s)) evs.
Proof.
  revert s. induction evs as [|ev evs IH]; intros s.
  - by rewrite app_nil_r.
  - change (relay (ev :: evs) s) with (relay evs (process_state ev s)).
    rewrite IH. cbn [relay_chunks]. unfold process_state. simpl.
    by rewrite <- app_assoc.
Qed.

Lemma try_block_relay e req userId s c s1 o :
  try_block e req userId s = (c, s1) ->
  (∀ o', CallChatReplyProcess o' ∉ trace s) ->
  CallChatReplyProcess o ∈ trace s1 ->
  body (caught c s1)
  = body s ++ relay_chunks true (env_events e) ++ [closing_chunk (env_reply e)].
Proof.
  intros H Hno Hin. exec H; leaf H; revert Hin; simpl_goal; intros Hin;
    rewrite ?elem_of_app in Hin;
    repeat match goal with
           | Hin : _ ∨ _ |- _ => destruct Hin as [Hin|Hin]
           | Hin : _ ∈ trace s |- _ => by apply Hno in Hin
           end; solve_elem.
  all: cbn [caught set_body body]; rewrite ?relay_body_chunks; simpl_goal.
  all: repeat match goal with
           | Heq : ?x = _ |- context [?x] => rewrite Heq
           end.
  all: cbn [closing_chunk]; by rewrite <- ?app_assoc.
Qed.

(** Phases of a request whose log holds some call [ev] other than the room
    lookup: the lookup answered. *)
Lemma chat_process_past_lookup e req userId s c s' ev :
  post_chat_process e req userId s = (c, s') ->
  ev ∈ trace s' ->
  ev ≠ CallGetChatRoom userId (roomId req) ->
  env_fault e OpGetChatRoom = None.
Proof.
  intros Hrun Hin Hne.
  destruct (env_fault e OpGetChatRoom) as [err|] eqn:Hf; [|done].
  destruct (chat_process_room_fault e req userId s err Hf)
    as (s2 & Hrun' & _ & _ & _ & _ & Ht).
  rewrite Hrun in Hrun'. injection Hrun' as _ <-.
  rewrite Ht in Hin. apply list_elem_of_singleton in Hin. done.
Qed.

(** X1. Once the backend is driven, the response is exactly the partial events in
    the order the backend emitted them, the first one flagged as such,
    followed by one closing chunk: the result's data when the backend
    returned, an error-shaped chunk when it threw. *)
Theorem chat_process_relays_in_order e req userId s o :
  let s' := snd (post_chat_process e req userId s) in
  CallChatReplyProcess o ∈ trace s' ->
  body s' = relay_chunks true (env_events e) ++ [closing_chunk (env_reply e)] ∧
  ended s' = true.
Proof.
  intros s' Hin. subst s'.
  destruct (post_chat_process e req userId s) as [c s'] eqn:Hrun. simpl in *.
  assert (Hf := chat_process_past_lookup _ _ _ _ _ _ _ Hrun Hin ltac:(done)).
  destruct (chat_process_phases _ _ _ _ _ _ Hf Hrun)
    as (s0 & c1 & s1 & c2 & _ & _ & _ & _ & Hb0 & _ & Ht0 & _ & Htry & Hfin & _).
  destruct (finally_block_cases _ _ _ _ _ _ Hfin) as (Hb & He & _).
  destruct (finally_block_trace _ _ _ _ _ _ Hfin) as (t2 & Ht2 & Hw).
  destruct (caught_frame c1 s1) as (_ & _ & _ & Htc & _).
  split; [|done]. rewrite Hb.
  erewrite try_block_relay; [by rewrite Hb0| exact Htry | |].
  - intros o' Ho. rewrite Ht0 in Ho. by apply list_elem_of_singleton in Ho.
  - rewrite Ht2, Htc in Hin. apply elem_of_app in Hin as [Hin|Hin]; [done|].
    rewrite Forall_forall in Hw. by apply Hw in Hin.
Qed.

(** X2. The two finalization writes come after every other collaborator call of
    a request, and at most once each: the request ends with nothing, with
    one [updateChat], or with one [updateChat] followed by one
    [insertChatUsage] for the same turn. *)
Theorem chat_process_finalization_last e req userId s :
  let s' := snd (post_chat_process e req userId s) in
  ∃ reads writes,
    trace s' = reads ++ writes ∧
    Forall (fun ev => ¬ is_write ev) reads ∧
    (writes = [] ∨
     (∃ m d, writes = [update_call (regenerate req) m d]) ∨
     (∃ m d u, writes = [update_call (regenerate req) m d;
                         CallInsertChatUsage userId (roomId req) (c_id m) (m_id d) u])).
Proof.
  intros s'. subst s'.
  destruct (post_chat_process e req userId s) as [c s'] eqn:Hrun. simpl.
  destruct (env_fault e OpGetChatRoom) as [err|] eqn:Hf.
  { destruct (chat_process_room_fault e req userId s err Hf)
      as (s2 & Hrun' & _ & _ & _ & _ & Ht).
    rewrite Hrun in Hrun'. injection Hrun' as _ <-.
    exists [CallGetChatRoom userId (roomId req)], [].
    rewrite Ht. split; [done|]. split; [|by left].
    constructor; [by intros []|constructor]. }
  destruct (chat_process_phases _ _ _ _ _ _ Hf Hrun)
    as (s0 & c1 & s1 & c2 & _ & _ & _ & _ & _ & _ & Ht0 & _ & Htry & Hfin & _).
  destruct (try_block_trace _ _ _ _ _ _ Htry) as (t & Ht & Hnw & _).
  destruct (caught_frame c1 s1) as (_ & _ & _ & Htc & Hcv & _).
  destruct (finally_block_cases _ _ _ _ _ _ Hfin)
    as (_ & _ & _ & _ & _ & _ & _ & Hc).
  rewrite Hcv, Htc in Hc.
  assert (Hreads : Forall (fun ev => ¬ is_write ev) (trace s1)).
  { rewrite Ht, Ht0. apply Forall_app. split; [|done].
    constructor; [by intros []|constructor]. }
  exists (trace s1).
  destruct (final_data (vars s1)) as [| |d];
    try (exists []; rewrite app_nil_r; destruct Hc as (-> & _); by eauto).
  destruct (v_message (vars s1)) as [m|];
    try (exists []; rewrite app_nil_r; destruct Hc as (-> & _); by eauto).
  cbv zeta in Hc. destruct (env_fault e OpUpdateChat).
  - destruct Hc as (-> & _). eexists. split; [done|]. split; [done|]. right. left. eauto.
  - destruct Hc as (_ & Hc). destruct (detail_usage d) as [u|].
    + destruct (env_objectId e userId).
      * destruct Hc as (-> & _). eexists. split; [done|]. split; [done|].
        right. left. eauto.
      * destruct Hc as (-> & _). eexists. split; [done|]. split; [done|].
        right. right. eauto.
    + destruct Hc as (-> & _). eexists. split; [done|]. split; [done|].
      right. left. eauto.
Qed.

Lemma try_block_audit e req userId s c s1 t :
  try_block e req userId s = (c, s1) ->
  (∀ t', CallContainsSensitiveWords t' ∉ trace s) ->
  CallContainsSensitiveWords t ∈ trace s1 ->
  t = prompt req ∧
  ∃ cfg u, env_config e = Returns cfg ∧
    enabled (auditConfig cfg) || customizeEnabled (auditConfig cfg) = true ∧
    env_user e = Returns (Some u) ∧ Admin ∉ roles u.
Proof.
  intros H Hno Hin. exec H; leaf H; revert Hin; simpl_goal; intros Hin;
    rewrite ?elem_of_app in Hin;
    repeat match goal with
           | Hin : _ ∨ _ |- _ => destruct Hin as [Hin|Hin]
           | Hin : _ ∈ trace s |- _ => by apply Hno in Hin
           end; solve_elem.
  all: injection Hin as ->; split; [done|].
  all: simplify_eq.
  all: repeat match goal with
           | Heq : negb _ = true |- _ => apply negb_true_iff in Heq
           end.
  all: do 2 eexists; repeat split; try done.
  all: unfold includes in *;
    match goal with
    | Heq : bool_decide _ = false |- _ => by apply bool_decide_eq_false in Heq
    end.
Qed.

(** X3. The audit predicate is consulted only when one of the two audit switches
    is on and the user is not an Admin, and then on the request's prompt:
    with auditing off, or for an Admin, no prompt is ever audited. *)
Theorem chat_process_audits_only_when_due e req userId s t :
  let s' := snd (post_chat_process e req userId s) in
  CallContainsSensitiveWords t ∈ trace s' ->
  t = prompt req ∧
  ∃ cfg u, env_config e = Returns cfg ∧
    enabled (auditConfig cfg) || customizeEnabled (auditConfig cfg) = true ∧
    env_user e = Returns (Some u) ∧ Admin ∉ roles u.
Proof.
  intros s' Hin. subst s'.
  destruct (post_chat_process e req userId s) as [c s'] eqn:Hrun. simpl in *.
  assert (Hf := chat_process_past_lookup _ _ _ _ _ _ _ Hrun Hin ltac:(done)).
  destruct (chat_process_phases _ _ _ _ _ _ Hf Hrun)
    as (s0 & c1 & s1 & c2 & _ & _ & _ & _ & _ & _ & Ht0 & _ & Htry & Hfin & _).
  destruct (finally_block_trace _ _ _ _ _ _ Hfin) as (t2 & Ht2 & Hw).
  destruct (caught_frame c1 s1) as (_ & _ & _ & Htc & _).
  eapply try_block_audit; [exact Htry| |].
  - intros t' Ho. rewrite Ht0 in Ho. by apply list_elem_of_singleton in Ho.
  - rewrite Ht2, Htc in Hin. apply elem_of_app in Hin as [Hin|Hin]; [done|].
    rewrite Forall_forall in Hw. by apply Hw in Hin.
Qed.

Lemma try_block_key_rejected e req userId s c s1 model err :
  try_block e req userId s = (c, s1) ->
  env_key e = Throws err ->
  (∀ m, CallGetRandomApiKey m ∉ trace s) ->
  CallGetRandomApiKey model ∈ trace s1 ->
  c = Thrown err ∧ body s1 = body s ∧
  v_result (vars s1) = v_result (vars s) ∧
  v_lastResponse (vars s1) = v_lastResponse (vars s) ∧
  (∃ t, trace s1 = trace s ++ t ∧ Forall (fun ev => ¬ is_stream ev) t) ∧
  chats s1 = if regenerate req then chats s
             else chats s ++ [new_chat (fresh_id (chats s)) (env_now e) (uuid req)
                                       (prompt req) (roomId req) (options req)].
Proof.
  intros H Hk Hno Hin. exec H; leaf H; revert Hin; simpl_goal; intros Hin;
    rewrite ?elem_of_app in Hin;
    repeat match goal with
           | Hin : _ ∨ _ |- _ => destruct Hin as [Hin|Hin]
           | Hin : _ ∈ trace s |- _ => by apply Hno in Hin
           end; solve_elem; simplify_eq.
  all: repeat split; try done.
  all: eexists; split; [rewrite <- ?app_assoc; reflexivity|].
  all: repeat constructor; by intros [].
Qed.

(** X4. When credential selection throws, the caller gets one error-shaped chunk
    carrying that error's message and the response is ended; the backend is
    never driven and nothing is updated or accounted.  A regenerate request
    leaves the store as it was; any other request leaves behind the turn row
    it inserted before selecting the credential, without a response. *)
Theorem chat_process_no_credential e req userId s model err :
  let s' := snd (post_chat_process e req userId s) in
  env_key e = Throws err ->
  CallGetRandomApiKey model ∈ trace s' ->
  body s' = [ChunkError (error_message err)] ∧ ended s' = true ∧
  Forall (fun ev => ¬ is_stream ev ∧ ¬ is_write ev) (trace s') ∧
  usages s' = usages s ∧
  chats s' = if regenerate req then chats s
             else chats s ++ [new_chat (fresh_id (chats s)) (env_now e) (uuid req)
                                       (prompt req) (roomId req) (options req)].
Proof.
  intros s' Hk Hin. subst s'.
  destruct (post_chat_process e req userId s) as [c s'] eqn:Hrun. simpl in *.
  assert (Hf := chat_process_past_lookup _ _ _ _ _ _ _ Hrun Hin ltac:(done)).
  destruct (chat_process_phases _ _ _ _ _ _ Hf Hrun)
    as (s0 & c1 & s1 & c2 & _ & Hc0 & Hu0 & _ & Hb0 & _ & Ht0 & Hv0 & Htry & Hfin & _).
  destruct (finally_block_trace _ _ _ _ _ _ Hfin) as (t2 & Ht2 & Hw).
  destruct (caught_frame c1 s1) as (_ & Hcc & Hcu & Htc & Hcv & _).
  destruct (try_block_frame _ _ _ _ _ _ Htry) as (Hu1 & _).
  destruct (try_block_trace _ _ _ _ _ _ Htry) as (t & Ht & Hnw & _).
  destruct (try_block_key_rejected _ _ _ _ _ _ model err Htry Hk)
    as (-> & Hb1 & Hr1 & Hl1 & (t' & Ht' & Hns) & Hc1).
  { intros m Ho. rewrite Ht0 in Ho. by apply list_elem_of_singleton in Ho. }
  { rewrite Ht2, Htc in Hin. apply elem_of_app in Hin as [Hin|Hin]; [done|].
    rewrite Forall_forall in Hw. by apply Hw in Hin. }
  destruct (finally_block_cases _ _ _ _ _ _ Hfin)
    as (Hb & He & _ & _ & _ & _ & _ & Hc).
  assert (Hd : final_data (vars (caught (Thrown err) s1)) = Undefined).
  { unfold final_data. by rewrite Hcv, Hr1, Hl1, Hv0. }
  rewrite Hd in Hc. destruct Hc as (Htr & Hch & Hus).
  split; [by rewrite Hb; cbn [caught set_body body]; rewrite Hb1, Hb0|].
  split; [done|]. split.
  - rewrite Htr, Htc. apply Forall_forall. intros ev Hev. split.
    + rewrite Ht', Ht0 in Hev. apply elem_of_app in Hev as [Hev|Hev].
      * apply list_elem_of_singleton in Hev as ->. by intros [].
      * rewrite Forall_forall in Hns. by apply Hns.
    + rewrite Ht, Ht0 in Hev. apply elem_of_cons in Hev as [->|Hev]; [by intros []|].
      rewrite Forall_forall in Hnw. by apply Hnw.
  - split; [by rewrite Hus, Hcu, Hu1, Hu0|].
    by rewrite Hch, Hcc, Hc1, Hc0.
Qed.

(** X5. A regenerate request for a turn that does not exist changes nothing in
    the store: no row is inserted or updated, no usage row is written, and
    the backend is never driven. *)
Theorem chat_process_regenerate_missing e req userId s :
  let s' := snd (post_chat_process e req userId s) in
  regenerate req = true ->
  find_chat (roomId req) (uuid req) (chats s) = None ->
  chats s' = chats s ∧ usages s' = usages s ∧
  Forall (fun ev => ¬ is_stream ev ∧ ¬ is_write ev) (trace s').
Proof.
  intros s' Hre Hnone. subst s'.
  destruct (post_chat_process e req userId s) as [c s'] eqn:Hrun. simpl.
  destruct (env_fault e OpGetChatRoom) as [err|] eqn:Hf.
  { destruct (chat_process_room_fault e req userId s err Hf)
      as (s2 & Hrun' & _ & _ & Hc & Hu & Ht).
    rewrite Hrun in Hrun'. injection Hrun' as _ <-.
    rewrite Ht. repeat split; try done.
    constructor; [split; by intros []|constructor]. }
  destruct (chat_process_phases _ _ _ _ _ _ Hf Hrun)
    as (s0 & c1 & s1 & c2 & _ & Hc0 & Hu0 & _ & _ & _ & Ht0 & Hv0 & Htry & Hfin & _).
  destruct (caught_frame c1 s1) as (_ & Hcc & Hcu & Htc & Hcv & _).
  destruct (try_block_frame _ _ _ _ _ _ Htry) as (Hu1 & _).
  destruct (try_block_trace _ _ _ _ _ _ Htry) as (t & Ht & Hnw & Hstream).
  destruct (try_block_regenerate _ _ _ _ _ _ Htry Hre) as (Hc1 & Hmsg).
  assert (Hm : v_message (vars s1) = None).
  { rewrite Hv0, Hc0, Hnone in Hmsg. by destruct Hmsg. }
  destruct (finally_block_cases _ _ _ _ _ _ Hfin)
    as (_ & _ & _ & _ & _ & _ & _ & Hc).
  rewrite Hcv, Hm in Hc.
  assert (Hsame : trace s' = trace (caught c1 s1) ∧ chats s' = chats (caught c1 s1)
                  ∧ usages s' = usages (caught c1 s1))
    by (by destruct (final_data (vars s1))).
  destruct Hsame as (Htr & Hch & Hus).
  split; [by rewrite Hch, Hcc, Hc1, Hc0|].
  split; [by rewrite Hus, Hcu, Hu1, Hu0|].
  rewrite Htr, Htc, Ht, Ht0. constructor; [split; by intros []|].
  apply Forall_forall. intros ev Hev. split.
  - destruct ev; try by intros [].
    destruct (Hstream _ Hev) as (_ & (m & k & Hm' & _) & _). congruence.
  - rewrite Forall_forall in Hnw. by apply Hnw.
Qed.

Lemma finally_block_rejected e req userId s c s' err :
  finally_block e req userId s = (c, s') ->
  env_fault e OpUpdateChat = Some err ->
  (∃ m d, v_message (vars s) = Some m ∧ final_data (vars s) = Obj d) ->
  console s' = console s ++ [error_message err].
Proof.
  intros H Hf (m & d & Hm & Hd). revert Hd. unfold final_data, data_of.
  exec H; leaf H; simpl_goal; simplify_eq; try done.
  all: repeat match goal with
           | Heq : negb _ = true |- _ => apply negb_true_iff in Heq
           | Heq : negb _ = false |- _ => apply negb_false_iff in Heq
           end.
  all: repeat match goal with
           | Heq : ?x = _ |- context [?x] => rewrite Heq
           end; try done.
Qed.

Lemma try_block_chats e req userId s c s1 :
  try_block e req userId s = (c, s1) ->
  chats s1 = chats s ∨
  (regenerate req = false ∧
   chats s1 = chats s ++ [new_chat (fresh_id (chats s)) (env_now e) (uuid req)
                                   (prompt req) (roomId req) (options req)]).
Proof.
  intros H. exec H; leaf H; simpl_goal; auto.
Qed.

(** X6. A store that rejects the update does not reach the caller: the response
    was already ended with its closing chunk, the error is logged on the
    console, no usage row is written and every turn row that existed keeps
    what it had. *)
Theorem chat_process_update_rejected e req userId s chatId text id conv u prev err :
  let r := post_chat_process e req userId s in
  env_fault e OpUpdateChat = Some err ->
  CallUpdateChat chatId text id conv u prev ∈ trace (snd r) ->
  (∀ err', fst r ≠ Thrown err') ∧
  ended (snd r) = true ∧
  (∃ l c, body (snd r) = l ++ [c] ∧ terminal c) ∧
  last (console (snd r)) = Some (error_message err) ∧
  usages (snd r) = usages s ∧
  (∀ k row, chats s !! k = Some row -> chats (snd r) !! k = Some row) ∧
  (∀ uid room cid mid us,
     CallInsertChatUsage uid room cid mid us ∉ trace (snd r)).
Proof.
  intros r Hfu Hin. subst r.
  destruct (post_chat_process e req userId s) as [c s'] eqn:Hrun.
  assert (Hf := chat_process_past_lookup _ _ _ _ _ _ _ Hrun Hin ltac:(done)).
  pose proof (chat_process_terminal e req userId s Hf) as Hterm.
  rewrite Hrun in Hterm. simpl in *. destruct Hterm as (Hended & Hnt & Hbody).
  destruct (chat_process_phases _ _ _ _ _ _ Hf Hrun)
    as (s0 & c1 & s1 & c2 & _ & Hc0 & Hu0 & _ & _ & _ & Ht0 & _ & Htry & Hfin & _).
  destruct (try_block_trace _ _ _ _ _ _ Htry) as (t & Ht & Hnw & _).
  destruct (try_block_frame _ _ _ _ _ _ Htry) as (Hu1 & _).
  destruct (caught_frame c1 s1) as (_ & Hcc & Hcu & Htc & Hcv & _).
  destruct (finally_block_cases _ _ _ _ _ _ Hfin)
    as (_ & _ & _ & _ & _ & _ & _ & Hc).
  assert (Hpre : ∀ ev, is_write ev -> ev ∉ trace (caught c1 s1)).
  { intros ev Hev. rewrite Htc, Ht, Ht0. intros Hi.
    apply elem_of_cons in Hi as [->|Hi]; [done|].
    rewrite Forall_forall in Hnw. by apply Hnw in Hi. }
  destruct (final_data (vars (caught c1 s1))) as [| |d] eqn:Hd;
    try (destruct Hc as (Hc & _); rewrite Hc in Hin; by apply Hpre in Hin).
  destruct (v_message (vars (caught c1 s1))) as [m|] eqn:Hm;
    try (destruct Hc as (Hc & _); rewrite Hc in Hin; by apply Hpre in Hin).
  cbv zeta in Hc. rewrite Hfu in Hc. destruct Hc as (Htr & Hch & Hus).
  repeat (split; [done|]). split; [|split; [|split]].
  - erewrite finally_block_rejected by eauto. by rewrite last_snoc.
  - by rewrite Hus, Hcu, Hu1, Hu0.
  - intros k row Hk. rewrite Hch, Hcc.
    destruct (try_block_chats _ _ _ _ _ _ Htry) as [->|(_ & ->)]; rewrite Hc0.
    + done.
    + by apply lookup_app_l_Some.
  - intros uid room cid mid us Hi. rewrite Htr in Hi.
    apply elem_of_app in Hi as [Hi|Hi]; [by apply Hpre in Hi|].
    by apply list_elem_of_singleton in Hi.
Qed.

Lemma finally_block_row e req userId s c s' m k d :
  finally_block e req userId s = (c, s') ->
  env_fault e OpUpdateChat = None ->
  v_message (vars s) = Some m ->
  chats s !! k = Some m ->
  final_data (vars s) = Obj d ->
  chats s' !! k
  = Some (update_row (m_text d) (m_id d) (m_conversationId d) (detail_usage d)
                     (branch_list (regenerate req) m) m).
Proof.
  intros Hfin Hfu Hm Hk Hd.
  destruct (finally_block_cases _ _ _ _ _ _ Hfin)
    as (_ & _ & _ & _ & _ & _ & _ & Hc).
  rewrite Hd, Hm, Hfu in Hc. cbv zeta in Hc. destruct Hc as (Hc & _).
  rewrite Hc. erewrite update_chat_lookup by done.
  by rewrite bool_decide_eq_true_2.
Qed.

Lemma try_block_message e req userId s c s1 m :
  try_block e req userId s = (c, s1) ->
  v_message (vars s) = None ->
  v_message (vars s1) = Some m ->
  c_roomId m = roomId req ∧ c_uuid m = uuid req ∧
  (regenerate req = false -> c_prompt m = prompt req ∧ c_response m = None).
Proof.
  intros H Hnone Hm. exec H; leaf H; revert Hm; simpl_goal; intros Hm;
    try congruence; simplify_eq; try done.
  all: match goal with
       | Hf : find_chat _ _ _ = Some _ |- _ =>
           destruct (find_chat_lookup _ _ _ _ Hf) as (k & _ & Hmatch);
           unfold chat_matches in Hmatch;
           apply andb_true_iff in Hmatch as [H1 H2];
           apply bool_decide_eq_true in H1, H2
       end.
  all: split; [done|]; split; [done|]; congruence.
Qed.

(** X7. When the backend returns a Success result with data and the store
    accepts the update, the turn of the request (its room and sequence id)
    holds the result's text, its backend message id and conversation id, and
    the usage counters of the result (none when the result carries no
    usage). *)
Theorem chat_process_success_persisted e req userId s o r d :
  let s' := snd (post_chat_process e req userId s) in
  CallChatReplyProcess o ∈ trace s' ->
  env_reply e = Returns r ->
  status r = "Success" ->
  data r = Some d ->
  env_fault e OpUpdateChat = None ->
  ∃ k row,
    chats s' !! k = Some row ∧ c_id row = ro_messageId o ∧
    c_roomId row = roomId req ∧ c_uuid row = uuid req ∧
    c_response row = m_text d ∧
    messageId (c_options row) = m_id d ∧
    conversationId (c_options row) = m_conversationId d ∧
    prompt_tokens (c_options row) = u_prompt_tokens <$> detail_usage d ∧
    completion_tokens (c_options row) = u_completion_tokens <$> detail_usage d ∧
    total_tokens (c_options row) = u_total_tokens <$> detail_usage d.
Proof.
  intros s' Hin Hret Hst Hdata Hfu. subst s'.
  destruct (post_chat_process e req userId s) as [c s'] eqn:Hrun. simpl in *.
  assert (Hf := chat_process_past_lookup _ _ _ _ _ _ _ Hrun Hin ltac:(done)).
  destruct (chat_process_phases _ _ _ _ _ _ Hf Hrun)
    as (s0 & c1 & s1 & c2 & _ & _ & _ & _ & _ & _ & Ht0 & Hv0 & Htry & Hfin & _).
  destruct (try_block_trace _ _ _ _ _ _ Htry) as (t & Ht & _ & Hstream).
  destruct (finally_block_trace _ _ _ _ _ _ Hfin) as (t2 & Ht2 & Hw).
  destruct (caught_frame c1 s1) as (_ & Hcc & _ & Htc & Hcv & _).
  assert (Hs : streamed e s0 s1 o).
  { apply Hstream. rewrite Ht2, Htc, Ht, Ht0 in Hin.
    rewrite !elem_of_app in Hin. destruct Hin as [[Hin|Hin]|Hin]; [|done|].
    - by apply list_elem_of_singleton in Hin.
    - rewrite Forall_forall in Hw. by apply Hw in Hin. }
  destruct Hs as (_ & (m & k & Hm & Hk & Hid) & _ & Hr).
  destruct (try_block_message _ _ _ _ _ _ m Htry) as (Hroom & Huuid & _);
    [by rewrite Hv0|done|].
  rewrite Hret in Hr.
  assert (Hd : final_data (vars (caught c1 s1)) = Obj d).
  { unfold final_data. rewrite Hcv, Hr. cbn [of_response res_status res_data].
    by rewrite Hst, Hdata, bool_decide_eq_true_2. }
  exists k. eexists. split.
  - eapply finally_block_row; [exact Hfin|done|by rewrite Hcv|by rewrite Hcc|exact Hd].
  - cbn. by rewrite Hid.
Qed.

(** ** More on /chat-abort and the two history handlers *)

(** X8. When the store rejects the abort's update, the caller is told Fail (with
    the reset-mail text the handler has there), no turn or usage row changes,
    and the in-flight turn, if any, is cancelled all the same. *)
Theorem chat_abort_update_rejected e userId text mid cid s err :
  env_fault e OpUpdateChat = Some err ->
  let r := chat_abort e userId text mid cid s in
  fst r = Val tt ∧
  body (snd r) = body s ++ [ChunkSend "Fail" "重置邮件已发送 | Reset email has been sent"] ∧
  ended (snd r) = true ∧
  chats (snd r) = chats s ∧ usages (snd r) = usages s ∧
  threads (snd r) = alter cancel userId (threads s).
Proof.
  intros Hf r. subst r. unfold chat_abort, abortChatProcess, updateChat.
  unfold_monad. rewrite Hf. unfold_state. by repeat split.
Qed.

Lemma unknown_room_missing e userId roomId s :
  roomId = 0%Z ∨
  (env_fault e OpGetChatRoom = None ∧ find_room userId roomId (rooms s) = None) ->
  unknown_room e userId roomId s = (Val true, s).
Proof.
  unfold unknown_room, existsChatRoom. case_bool_decide; [done|].
  intros [?|[Hf Hr]]; [done|]. unfold_monad. rewrite Hf, Hr.
  rewrite bool_decide_eq_false_2; [done|]. by intros [? ?].
Qed.

(** X9. For a room id of 0 (or a missing one), and for a room the caller does
    not own or that does not exist, both history handlers reply Success with
    an empty list, not an error; neither the listing nor the turn is read,
    and for room id 0 the store is not consulted at all. *)
Theorem history_unknown_room e userId roomId uuid index listing s :
  roomId = 0%Z ∨
  (env_fault e OpGetChatRoom = None ∧ find_room userId roomId (rooms s) = None) ->
  chat_history e userId roomId listing s
  = (Val (mkReply "Success" None (PList [])), s) ∧
  chat_response_history e userId roomId uuid index s
  = (Val (mkReply "Success" None (PList [])), s).
Proof.
  intros H. unfold chat_history, chat_response_history, try_catch.
  erewrite !bind_val by (by apply unknown_room_missing). done.
Qed.

(** X10. A turn that was never regenerated has no branch list, and
    /chat-response-history then fails with 'Error' for every index, 0
    included, although the turn has a current response. *)
Theorem chat_response_history_never_regenerated e userId roomId uuid index r c s :
  roomId ≠ 0%Z ->
  env_fault e OpGetChatRoom = None ->
  env_fault e OpGetChat = None ->
  find_room userId roomId (rooms s) = Some r ->
  find_chat roomId uuid (chats s) = Some c ->
  c_previousResponse c = None ->
  fst (chat_response_history e userId roomId uuid index s)
  = Val (mkReply "Fail" (Some "Error") (PList [])).
Proof.
  intros Hz Hfr Hfc Hr Hc Hp.
  destruct (getChat_found e roomId uuid c s Hfc Hc) as (s' & Hget & _).
  unfold chat_response_history, try_catch.
  erewrite bind_val by (eapply unknown_room_known; eauto).
  cbv beta iota. erewrite bind_val by exact Hget.
  unfold_monad. by rewrite Hp.
Qed.

(** X11. Out of range below, and missing turn: a negative index on a turn with
    a branch list, and any index on a turn that does not exist, end in the
    handler's catch and are answered Fail 'Load error' with null data. *)
Theorem chat_response_history_load_error e userId roomId uuid index r s :
  roomId ≠ 0%Z ->
  env_fault e OpGetChatRoom = None ->
  env_fault e OpGetChat = None ->
  find_room userId roomId (rooms s) = Some r ->
  (find_chat roomId uuid (chats s) = None ∨
   ∃ c prev, find_chat roomId uuid (chats s) = Some c ∧
             c_previousResponse c = Some prev ∧ (index < 0)%Z) ->
  fst (chat_response_history e userId roomId uuid index s)
  = Val (mkReply "Fail" (Some "Load error") PNull).
Proof.
  intros Hz Hfr Hfc Hr Hcase.
  unfold chat_response_history, try_catch.
  erewrite bind_val by (eapply unknown_room_known; eauto).
  cbv beta iota. unfold getChat. unfold_monad. rewrite Hfc. unfold_state.
  destruct Hcase as [->|(c & prev & -> & Hp & Hneg)]; [done|].
  rewrite Hp. unfold at_index.
  rewrite (bool_decide_eq_false_2 (Z.of_nat (length prev) < index)%Z) by lia.
  rewrite (bool_decide_eq_false_2 (index >= Z.of_nat (length prev))%Z) by lia.
  by rewrite (bool_decide_eq_true_2 (index < 0)%Z).
Qed.

Lemma turn_items_length c :
  length (turn_items c)
  = ((if bool_decide (c_status c ≠ InversionDeleted) then 1 else 0)
     + (if bool_decide (c_status c ≠ ResponseDeleted) then 1 else 0))%nat.
Proof.
  unfold turn_items, chat_history_push. by repeat case_bool_decide.
Qed.

(** X12. The listing of /chat-history has one prompt entry per turn whose prompt
    is not deleted and one response entry per turn whose response is not
    deleted, in the order of the turns; a listing that cannot be read is
    answered Fail 'Load error'. *)
Theorem chat_history_size e userId roomId r s listing :
  roomId ≠ 0%Z ->
  env_fault e OpGetChatRoom = None ->
  find_room userId roomId (rooms s) = Some r ->
  match listing with
  | Returns chats =>
      ∃ items,
        fst (chat_history e userId roomId listing s)
        = Val (mkReply "Success" None (PList items)) ∧
        items = flat_map turn_items chats ∧
        length items
        = (length (filter (fun c => c_status c ≠ InversionDeleted) chats)
           + length (filter (fun c => c_status c ≠ ResponseDeleted) chats))%nat
  | Throws _ =>
      fst (chat_history e userId roomId listing s)
      = Val (mkReply "Fail" (Some "Load error") PNull)
  end.
Proof.
  intros Hz Hf Hr. unfold chat_history, try_catch.
  erewrite bind_val by (eapply unknown_room_known; eauto).
  destruct listing as [chats|err]; unfold_monad; [|done].
  eexists. split; [reflexivity|]. rewrite chat_history_fold. simpl.
  split; [done|].
  induction chats as [|c chats IH]; [done|].
  simpl. rewrite length_app, IH, turn_items_length, !filter_cons.
  repeat case_decide; repeat case_bool_decide; simpl; try done; lia.
Qed.

(** ** /room-delete, /chat-delete and /chat-clear *)

(** X13. Unlike /chat-process, the three delete handlers turn down a room id of
    0 and a room the caller does not own or that does not exist: the caller
    is told Fail 'Unknow room' and the store call is never made, whatever
    it would have done. *)
Theorem delete_unknown_room e userId roomId uuid inversion
    deleteChatRoom deleteChat clearChat s :
  roomId = 0%Z ∨
  (env_fault e OpGetChatRoom = None ∧ find_room userId roomId (rooms s) = None) ->
  let refused := (Val (mkAck "Fail" (Some "Unknow room") true), s) in
  room_delete e deleteChatRoom userId roomId s = refused ∧
  chat_delete e deleteChat userId roomId uuid inversion s = refused ∧
  chat_clear e clearChat userId roomId s = refused.
Proof.
  intros H. unfold room_delete, chat_delete, chat_clear, guarded, try_catch.
  erewrite !bind_val by (by apply unknown_room_missing). done.
Qed.

(** X14. When the room lookup itself rejects, the three delete handlers answer
    Fail 'Delete error' and log the error; the store call is not made and
    the store is as it was. *)
Theorem delete_lookup_rejected e userId roomId uuid inversion
    deleteChatRoom deleteChat clearChat s err :
  roomId ≠ 0%Z ->
  env_fault e OpGetChatRoom = Some err ->
  let failed := (Val (mkAck "Fail" (Some "Delete error") true),
                 set_console (fun c => c ++ [error_message err]) s) in
  room_delete e deleteChatRoom userId roomId s = failed ∧
  chat_delete e deleteChat userId roomId uuid inversion s = failed ∧
  chat_clear e clearChat userId roomId s = failed.
Proof.
  intros Hz Hf. unfold room_delete, chat_delete, chat_clear, guarded, try_catch,
    unknown_room, existsChatRoom.
  rewrite bool_decide_eq_false_2 by done. unfold_monad. by rewrite Hf.
Qed.


(** ** POST /session *)














(** X16. /session never reports an API model other than the two it knows: a
    configured value that is one of the two is reported as configured, and
    any other configured value is reported as ChatGPTAPI.  The reply's
    [auth] and [title] are those of the configuration read first, and its
    [allowRegister] that of the configuration read second. *)
Theorem session_model_normalised options config config2 userId user cached data :
  sr_data (session options config config2 userId user cached) = Some data ->
  ∃ c c2, config = Returns c ∧ config2 = Returns c2 ∧
    (apiModel c = "ChatGPTAPI" ∨ apiModel c = "ChatGPTUnofficialProxyAPI" ->
     sd_model data = apiModel c) ∧
    (apiModel c ≠ "ChatGPTAPI" -> apiModel c ≠ "ChatGPTUnofficialProxyAPI" ->
     sd_model data = "ChatGPTAPI") ∧
    (sd_model data = "ChatGPTAPI" ∨ sd_model data = "ChatGPTUnofficialProxyAPI") ∧
    sd_auth data = loginEnabled c ∧ sd_title data = siteTitle c ∧
    sd_allowRegister data = registerEnabled c2.
Proof.
  unfold session.
  destruct config as [c|]; [|done]. destruct config2 as [c2|]; [|done].
  destruct userId as [uid|]; [|done]. cbn [and_then].
  match goal with
  | |- context [and_then ?x _] => destruct x as [l|]; [|done]
  end.
  cbn [and_then sr_data]. intros [= <-]. exists c, c2. split; [done|]. split; [done|].
  cbn [sd_model sd_auth sd_title sd_allowRegister].
  destruct (String.eqb_spec (apiModel c) "ChatGPTAPI") as [->|H1];
    destruct (String.eqb_spec (apiModel c) "ChatGPTUnofficialProxyAPI") as [H2|H2];
    simpl; rewrite ?H2; intuition.
Qed.

(** X17. A signed-in user whose row is gone: /session fails with the TypeError's
    message as soon as there is a cached credential to check the roles
    against, and succeeds with no model at all when there is none. *)
Theorem session_user_missing options config config2 uid allKeys :
  let reply := session options (Returns config) (Returns config2) (Returns (Some uid))
                       (Returns None) (Returns allKeys) in
  (allKeys ≠ [] ->
     reply = mkSessionReply "Fail"
               (Some "Cannot read properties of null (reading 'roles')") None) ∧
  (allKeys = [] ->
     sr_status reply = "Success" ∧ sd_chatModels <$> sr_data reply = Some []).
Proof.
  split.
  - intros Hne. by destruct allKeys.
  - intros ->. unfold session. cbn [and_then eligible_keys].
    unfold offered_models, count_models.
    assert (Hfold : ∀ l : list ChatModelOption,
      fold_left (fun count chatModel =>
                   fold_left (count_key (mo_value chatModel)) [] count) l []
      = ([] : list ModelCount)).
    { induction l as [|x l IH]; [done|]. simpl. exact IH. }
    rewrite Hfold. done.
Qed.


(** ** The account handlers *)

Ltac unfold_account H :=
  cbv [user_register user_login user_send_reset_mail user_reset_password user_status
       verify verifyadmin
       replying wbind wret wthrow wraise await perform fire reply_fail reply_success] in H.

Ltac account_step H :=
  match type of H with
  | context [match ?x with _ => _ end] =>
      lazymatch x with
      | context [match _ with _ => _ end] => fail
      | _ => destruct x eqn:?
      end
  end.

Ltac account_exec H :=
  unfold_account H; repeat (account_step H; cbn beta iota in H).

(** *** Strings *)

Lemma endsWith_spec s t : endsWith s t = true ↔ ∃ p, s = String.append p t.
Proof.
  split.
  - induction s as [|c s IH]; cbn [endsWith].
    + rewrite orb_false_r. intros ->%String.eqb_eq. by exists "".
    + intros [->%String.eqb_eq | H]%orb_true_iff; [by exists ""|].
      destruct (IH H) as (p & ->). by exists (String c p).
  - intros (p & ->). induction p as [|c p IH].
    + change (String.append "" t) with t.
      destruct t; cbn [endsWith]; by rewrite String.eqb_refl.
    + change (String.append (String c p) t) with (String c (String.append p t)).
      cbn [endsWith]. by rewrite IH, orb_true_r.
Qed.

Lemma endsWith_empty s : endsWith s "" = true.
Proof.
  apply endsWith_spec. exists s. induction s as [|c s IH]; [done|].
  change (String.append (String c s) "") with (String c (String.append s "")).
  by f_equal.
Qed.

Lemma allow_suffix_spec lowered l b :
  allow_suffix lowered l b = true ↔
  (l = [] ∧ b = true) ∨ ∃ element, element ∈ l ∧ endsWith lowered element = true.
Proof.
  revert b. induction l as [|x l IH]; intros b; simpl.
  - split; [by left|]. intros [[_ ?]|(? & ?%elem_of_nil & _)]; done.
  - destruct (endsWith lowered x) eqn:E.
    + split; [|done]. intros _. right. exists x. split; [by left|done].
    + rewrite IH. split.
      * intros [[_ ?]|(el & Hel & Hs)]; [done|]. right. exists el. split; [by right|done].
      * intros [[? _]|(el & Hel & Hs)]; [done|]. right.
        apply elem_of_cons in Hel as [->|Hel]; [congruence|]. by exists el.
Qed.

Lemma split_comma_nonempty s : split_comma s ≠ [].
Proof.
  destruct s as [|c s]; [done|]. simpl.
  destruct (Ascii.eqb c ","); [done|]. by destruct (split_comma s).
Qed.

Lemma split_comma_app a b :
  split_comma (String.append a (String "," b)) = split_comma a ++ split_comma b.
Proof.
  induction a as [|c a IH].
  - change (String.append "" (String "," b)) with (String "," b).
    cbn [split_comma]. by rewrite Ascii.eqb_refl.
  - change (String.append (String c a) (String "," b))
      with (String c (String.append a (String "," b))).
    cbn [split_comma]. rewrite IH. destruct (Ascii.eqb c ","); [done|].
    pose proof (split_comma_nonempty a). by destruct (split_comma a).
Qed.

(** *** POST /user-register *)

Lemma register_gate d username password cfg l :
  getSiteConfig d = Returns cfg ->
  sc_registerEnabled cfg = true ->
  isEmail d username = true ->
  user_register d username password l
  = if isNotEmptyString (sc_registerMails cfg)
       && negb (allow_suffix (toLowerCase d username)
                             (split_comma (default "" (sc_registerMails cfg))) false)
    then (Val (reply_fail "该邮箱后缀不支持 | The email service provider is not allowed"), l)
    else user_register (without_suffix_list d) username password l.
Proof.
  intros Hc He Hm. unfold user_register, replying, wbind, await, without_suffix_list.
  cbn [getSiteConfig isEmail getUser md5 toLowerCase ROOT_USER getUserVerifyUrl rejects].
  rewrite Hc. cbn [sc_registerEnabled sc_registerMails]. rewrite He, Hm.
  cbn [negb isNotEmptyString truthy_string andb].
  by destruct (isNotEmptyString (sc_registerMails cfg)
               && negb (allow_suffix _ _ false)).
Qed.

Lemma truthy_nonempty (s : string) : s ≠ "" -> truthy_string (Some s) = true.
Proof.
  intros H. unfold truthy_string. destruct (String.eqb_spec s ""); done.
Qed.

(** X18. With an allowed-suffix list configured, /user-register turns an address
    away, before it looks at the user store, exactly when the lower-cased
    address ends with none of the comma-separated elements of the list; when
    it ends with one of them the request goes on as if no list were set. *)
Theorem register_suffix_gate d username password cfg mails l :
  getSiteConfig d = Returns cfg ->
  sc_registerEnabled cfg = true ->
  isEmail d username = true ->
  sc_registerMails cfg = Some mails ->
  mails ≠ "" ->
  ((∀ element p, element ∈ split_comma mails ->
      toLowerCase d username ≠ String.append p element) ->
   user_register d username password l
   = (Val (reply_fail "该邮箱后缀不支持 | The email service provider is not allowed"), l)) ∧
  ((∃ element p, element ∈ split_comma mails ∧
      toLowerCase d username = String.append p element) ->
   user_register d username password l
   = user_register (without_suffix_list d) username password l).
Proof.
  intros Hc He Hm Hmails Hne.
  rewrite (register_gate d username password cfg l Hc He Hm), Hmails.
  unfold isNotEmptyString. rewrite truthy_nonempty by done.
  cbn [andb from_option id]. split.
  - intros Hnone.
    destruct (allow_suffix _ _ false) eqn:E; [|done].
    apply allow_suffix_spec in E as [[_ ?]|(el & Hel & (p & Hp)%endsWith_spec)]; [done|].
    by apply Hnone in Hp.
  - intros (el & p & Hel & Hp).
    assert (E : allow_suffix (toLowerCase d username) (split_comma mails) false = true).
    { apply allow_suffix_spec. right. exists el. split; [done|].
      apply endsWith_spec. by exists p. }
    by rewrite E.
Qed.

(** X19. A list of allowed suffixes that ends with a comma has an empty last
    element, which every address ends with: such a list turns nobody away. *)
Theorem register_trailing_comma d username password cfg mails l :
  getSiteConfig d = Returns cfg ->
  sc_registerEnabled cfg = true ->
  isEmail d username = true ->
  sc_registerMails cfg = Some (String.append mails ",") ->
  user_register d username password l
  = user_register (without_suffix_list d) username password l.
Proof.
  intros Hc He Hm Hmails.
  rewrite (register_gate d username password cfg l Hc He Hm), Hmails.
  cbn [from_option id].
  assert (E : allow_suffix (toLowerCase d username)
                (split_comma (String.append mails ",")) false = true).
  { apply allow_suffix_spec. right. exists "". split; [|apply endsWith_empty].
    rewrite split_comma_app. apply elem_of_app. right. by left. }
  rewrite E. by rewrite andb_false_r.
Qed.

Ltac solve_calls :=
  repeat match goal with
         | H : _ ∈ [] |- _ => by apply elem_of_nil in H
         | H : _ ∈ _ ++ _ |- _ => apply elem_of_app in H as [H | H]
         | H : _ ∈ _ :: _ |- _ =>
             apply elem_of_cons in H as [H | H]; [try discriminate H|]
         end.

(** X20. /user-register creates an account only for the address it was given,
    with the md5 of the password, when registration is enabled, the address
    is an e-mail address and the store holds no user under it; the root
    user's account is created without any mail being sent. *)
Theorem register_creates_only_new d username password email pw root :
  DoCreateUser email pw root ∈ snd (user_register d username password []) ->
  email = username ∧ pw = md5 d password ∧
  root = bool_decide (Some (toLowerCase d username) = ROOT_USER d) ∧
  (∃ cfg, getSiteConfig d = Returns cfg ∧ sc_registerEnabled cfg = true) ∧
  isEmail d username = true ∧
  getUser d username = Returns None ∧
  (root = true ->
   snd (user_register d username password []) = [DoCreateUser email pw root]).
Proof.
  destruct (user_register d username password []) as [c l'] eqn:H.
  cbn [snd]. intros Hin. account_exec H; injection H as <- <-; cbn [app] in Hin;
    solve_calls; simplify_eq.
  all: repeat match goal with
           | Heq : negb _ = false |- _ => apply negb_false_iff in Heq
           end.
  all: repeat split; eauto; try done.
Qed.

(** *** POST /user-login *)

(** X21. /user-login hands out a token only to a user the store knows under the
    given e-mail address, whose stored password is the md5 of the given one
    and whose status is Normal; the token signs that user's payload with the
    trimmed login salt, and nothing is written or mailed. *)
Theorem login_token_only_for_normal_user d username password l reply tok :
  fst (user_login d username password l) = Val reply ->
  ar_token reply = Some tok ->
  ∃ u p user cfg,
    username = Some u ∧ password = Some p ∧ u ≠ "" ∧ p ≠ "" ∧
    isEmail d u = true ∧
    getUser d u = Returns (Some user) ∧
    ur_password user = md5 d p ∧
    ur_status user = Normal ∧
    getSiteConfig d = Returns cfg ∧
    jwt_sign d (payload user) (trim d (sc_loginSalt cfg)) = Returns tok ∧
    (tp_root (payload user) = true ↔ Admin ∈ ur_roles user) ∧
    ar_status reply = "Success" ∧
    snd (user_login d username password l) = l.
Proof.
  destruct (user_login d username password l) as [c l'] eqn:H.
  cbn [fst snd]. intros -> Htok.
  account_exec H; injection H as <- <-; try discriminate Htok.
  injection Htok as <-.
  repeat match goal with
         | Heq : _ || _ = false |- _ => apply orb_false_iff in Heq as [? ?]
         | Heq : negb _ = false |- _ => apply negb_false_iff in Heq
         | Heq : bool_decide _ = false |- _ => apply bool_decide_eq_false in Heq
         | Heq : bool_decide _ = true |- _ => apply bool_decide_eq_true in Heq
         end.
  match goal with
  | Hu : getUser d ?s = Returns (Some ?u), Hc : getSiteConfig d = Returns ?c,
    Hp : (_ =? md5 d ?p) = true |- _ => exists s, p, u, c
  end.
  assert (∀ x, truthy_string (Some x) = true -> x ≠ "") as Hne
    by (by intros x Hx ->).
  repeat split; auto.
  - by apply String.eqb_eq.
  - match goal with
    | Hs : ¬ ur_status ?x ≠ Normal |- _ => by destruct (decide (ur_status x = Normal))
    end.
  - unfold payload, includes. cbn [tp_root]. apply bool_decide_eq_true.
  - unfold payload, includes. cbn [tp_root]. apply bool_decide_eq_true.
Qed.

(** X22. An unknown address and a wrong password get the same answer from
    /user-login, so the reply does not tell whether the account exists. *)
Theorem login_hides_unknown_user d u p l :
  u ≠ "" -> p ≠ "" -> isEmail d u = true ->
  (getUser d u = Returns None ∨
   ∃ user, getUser d u = Returns (Some user) ∧ ur_password user ≠ md5 d p) ->
  user_login d (Some u) (Some p) l
  = (Val (reply_fail "用户不存在或密码错误 | User does not exist or incorrect password."), l).
Proof.
  intros Hu Hp He Hcase. unfold user_login, replying, wbind, await, wthrow, wraise.
  rewrite !truthy_nonempty by done. rewrite He. cbn [negb orb].
  destruct Hcase as [->|(user & -> & Hpw)]; [done|].
  destruct (String.eqb_spec (ur_password user) (md5 d p)); done.
Qed.

(** *** POST /user-send-reset-mail *)

(** X23. /user-send-reset-mail mails a reset link only to the address it was
    given, and only when the store holds a user in Normal status under that
    e-mail address; it is the one mail of the request. *)
Theorem reset_mail_only_to_normal_user d username to url :
  DoSendResetPasswordMail to url ∈ snd (user_send_reset_mail d username []) ->
  ∃ user,
    username = Some to ∧ to ≠ "" ∧ isEmail d to = true ∧
    getUser d to = Returns (Some user) ∧ ur_status user = Normal ∧
    getUserResetPasswordUrl d to = Returns url ∧
    snd (user_send_reset_mail d username []) = [DoSendResetPasswordMail to url].
Proof.
  destruct (user_send_reset_mail d username []) as [c l'] eqn:H.
  cbn [snd]. intros Hin.
  account_exec H; injection H as <- <-; cbn [app] in Hin; solve_calls; simplify_eq.
  repeat match goal with
         | Heq : _ || _ = false |- _ => apply orb_false_iff in Heq as [? ?]
         | Heq : negb _ = false |- _ => apply negb_false_iff in Heq
         | Heq : bool_decide _ = false |- _ => apply bool_decide_eq_false in Heq
         end.
  eexists. split_and!; try done.
  - by intros ->.
  - match goal with
    | Hs : ¬ ur_status ?x ≠ Normal |- _ => by destruct (decide (ur_status x = Normal))
    end.
Qed.

(** *** POST /user-reset-password *)

(** X24. /user-reset-password writes a password only for a user in Normal status
    found under the given address, only after the signature was checked for
    that address, and what it writes is the md5 of the new password. *)
Theorem reset_password_only_when_signed d username password sign userId pw :
  DoUpdateUserPassword userId pw ∈ snd (user_reset_password d username password sign []) ->
  ∃ u p sg user,
    username = Some u ∧ password = Some p ∧ sign = Some sg ∧
    isEmail d u = true ∧
    checkUserResetPassword d sg u = true ∧
    getUser d u = Returns (Some user) ∧ ur_status user = Normal ∧
    userId = ur_id user ∧ pw = md5 d p.
Proof.
  destruct (user_reset_password d username password sign []) as [c l'] eqn:H.
  cbn [snd]. intros Hin.
  account_exec H; injection H as <- <-; cbn [app] in Hin; solve_calls; simplify_eq.
  repeat match goal with
         | Heq : _ || _ = false |- _ => apply orb_false_iff in Heq as [? ?]
         | Heq : negb _ = false |- _ => apply negb_false_iff in Heq
         | Heq : bool_decide _ = false |- _ => apply bool_decide_eq_false in Heq
         end.
  do 4 eexists. repeat split; try done.
  match goal with
  | Hs : ¬ ur_status ?x ≠ Normal |- _ => by destruct (decide (ur_status x = Normal))
  end.
Qed.

(** X25. The password write of /user-reset-password is not awaited: once the
    checks pass the caller is told the reset succeeded, also when the store
    rejects the write and the password stays what it was. *)
Theorem reset_password_reports_success_regardless d u p sg user l :
  u ≠ "" -> p ≠ "" -> sg ≠ "" -> isEmail d u = true ->
  checkUserResetPassword d sg u = true ->
  getUser d u = Returns (Some user) -> ur_status user = Normal ->
  let r := user_reset_password d (Some u) (Some p) (Some sg) l in
  fst r = Val (reply_success "密码重置成功 | Password reset successful") ∧
  snd r = match rejects d (DoUpdateUserPassword (ur_id user) (md5 d p)) with
          | Some _ => l
          | None => l ++ [DoUpdateUserPassword (ur_id user) (md5 d p)]
          end.
Proof.
  intros Hu Hp Hs He Hc Hg Hn r. subst r.
  unfold user_reset_password, replying, wbind, await, wthrow, wraise, fire, wret.
  rewrite !truthy_nonempty by done. rewrite He, Hc, Hg. cbn [negb orb].
  rewrite bool_decide_eq_false_2 by (by intros ?).
  by destruct (rejects d _).
Qed.

(** *** POST /user-status *)

(** X26. /user-status mails a notice only to the e-mail address of the user whose
    status it just set to Normal and who was waiting for verification
    (PreVerify or AdminVerify) before; the status write comes first. *)
Theorem user_status_notice d userId status to :
  DoSendNoticeMail to ∈ snd (user_status d userId status []) ->
  ∃ user,
    getUserRowById d userId = Returns (Some user) ∧ to = ur_email user ∧
    status = Normal ∧
    (ur_status user = PreVerify ∨ ur_status user = AdminVerify) ∧
    snd (user_status d userId status [])
    = [DoUpdateUserStatus userId status; DoSendNoticeMail to].
Proof.
  destruct (user_status d userId status []) as [c l'] eqn:H.
  cbn [snd]. intros Hin.
  account_exec H; injection H as <- <-; cbn [app] in Hin; solve_calls; simplify_eq.
  repeat match goal with
         | Heq : _ && _ = true |- _ => apply andb_true_iff in Heq as [? ?]
         | Heq : _ || _ = true |- _ => apply orb_true_iff in Heq
         | Heq : bool_decide _ = true |- _ => apply bool_decide_eq_true in Heq
         end.
  eexists. repeat split; try done.
  match goal with
  | Hs : bool_decide _ = true ∨ bool_decide _ = true |- _ =>
      destruct Hs as [?%bool_decide_eq_true|?%bool_decide_eq_true]; auto
  end.
Qed.

(** X27. For a user id the store does not know, /user-status still issues the
    status write, and only then fails on reading the status of the missing
    user: the caller is told Fail although the write went through. *)
Theorem user_status_unknown_user d userId status :
  getUserRowById d userId = Returns None ->
  rejects d (DoUpdateUserStatus userId status) = None ->
  let r := user_status d userId status [] in
  (∃ reply, fst r = Val reply ∧ ar_status reply = "Fail" ∧
            ar_message reply = error_message (TypeError "null (reading 'status')")) ∧
  snd r = [DoUpdateUserStatus userId status].
Proof.
  intros Hg Hr. unfold user_status, replying, wbind, await, perform, wraise.
  rewrite Hg, Hr. cbn [fst snd app]. split; [|done]. by eexists.
Qed.

(** *** POST /verify *)

(** X28. /verify sets a status only for the user name its token checks to, and
    never for a user who is already Normal: with registration review on the
    status set is AdminVerify (and the admin is mailed afterwards), without
    it Normal. *)
Theorem verify_status d token name st :
  DoVerifyUser name st ∈ snd (verify d token []) ->
  ∃ tk cfg,
    token = Some tk ∧ tk ≠ "" ∧
    checkUserVerify d tk = Returns name ∧
    (∀ user, getUser d name = Returns (Some user) -> ur_status user ≠ Normal) ∧
    getSiteConfig d = Returns cfg ∧
    st = (if sc_registerReview cfg then AdminVerify else Normal) ∧
    (∀ to email url, DoSendVerifyMailAdmin to email url ∈ snd (verify d token []) ->
       sc_registerReview cfg = true ∧ to = ROOT_USER d ∧ email = name).
Proof.
  destruct (verify d token []) as [c l'] eqn:H.
  cbn [snd]. intros Hin.
  account_exec H; injection H as <- <-; cbn [app] in Hin; solve_calls; simplify_eq.
  all: repeat match goal with
           | Heq : negb _ = false |- _ => apply negb_false_iff in Heq
           | Heq : bool_decide _ = false |- _ => apply bool_decide_eq_false in Heq
           end.
  all: do 2 eexists; split_and!; try done.
  all: try (intros ->; done).
  all: try (intros user Hu; rewrite Hu in *; by simplify_eq).
  all: try (match goal with Hr : sc_registerReview _ = _ |- _ => by rewrite Hr end).
  all: intros to email url Hm; cbn [app] in Hm; solve_calls; by simplify_eq.
Qed.

(** *** POST /verifyadmin *)

(** X29. /verifyadmin sends the activation notice only to the user name its token
    checks to, only after it set that user's status to Normal, and never for
    a user who is Normal already; whether the store holds that user at all,
    and in which other status, is not looked at. *)
Theorem verifyadmin_activates d token to :
  DoSendNoticeMail to ∈ snd (verifyadmin d token []) ->
  ∃ tk,
    token = Some tk ∧ tk ≠ "" ∧
    checkUserVerifyAdmin d tk = Returns to ∧
    (∀ user, getUser d to = Returns (Some user) -> ur_status user ≠ Normal) ∧
    snd (verifyadmin d token []) = [DoVerifyUser to Normal; DoSendNoticeMail to].
Proof.
  destruct (verifyadmin d token []) as [c l'] eqn:H.
  cbn [snd]. intros Hin.
  account_exec H; injection H as <- <-; cbn [app] in Hin; solve_calls; simplify_eq.
  all: repeat match goal with
           | Heq : negb _ = false |- _ => apply negb_false_iff in Heq
           | Heq : bool_decide _ = false |- _ => apply bool_decide_eq_false in Heq
           end.
  all: eexists; split_and!; try done.
  all: try (intros ->; done).
  all: intros user Hu; rewrite Hu in *; by simplify_eq.
Qed.


(** ** The further statements at concrete inputs *)

Lemma chat_process_relays_in_order_witness :
  body after_A
  = relay_chunks true (env_events scenario_A) ++ [closing_chunk (env_reply scenario_A)] ∧
  ended after_A = true.
Proof.
  apply (chat_process_relays_in_order scenario_A (ask 1 false) alice
           (server [maths; terse; theirs] []) sent_A).
  solve_mem.
Defined.

Lemma chat_process_audits_only_when_due_witness :
  "2+2?" = prompt (ask 1 false) ∧
  ∃ cfg u, env_config audited = Returns cfg ∧
    enabled (auditConfig cfg) || customizeEnabled (auditConfig cfg) = true ∧
    env_user audited = Returns (Some u) ∧ Admin ∉ roles u.
Proof.
  apply (chat_process_audits_only_when_due audited (ask 1 false) alice
           (server [maths] [turn_A]) "2+2?").
  solve_mem.
Defined.

Lemma chat_process_no_credential_witness :
  let s := server [maths] [] in
  let s' := snd (post_chat_process no_key (ask 1 false) alice s) in
  body s' = [ChunkError (Some "No available key")] ∧ ended s' = true ∧
  Forall (fun ev => ¬ is_stream ev ∧ ¬ is_write ev) (trace s') ∧
  usages s' = usages s ∧
  chats s' = chats s ++ [new_chat (fresh_id (chats s)) 100 7 "2+2?" 1 no_options].
Proof.
  apply (chat_process_no_credential no_key (ask 1 false) alice (server [maths] [])
           "gpt-3.5-turbo" (Error (Some "No available key"))).
  - reflexivity.
  - solve_mem.
Defined.

Lemma chat_process_regenerate_missing_witness :
  let s := server [maths] [] in
  let s' := snd (post_chat_process scenario_B (ask 1 true) alice s) in
  chats s' = chats s ∧ usages s' = usages s ∧
  Forall (fun ev => ¬ is_stream ev ∧ ¬ is_write ev) (trace s').
Proof.
  apply (chat_process_regenerate_missing scenario_B (ask 1 true) alice (server [maths] [])).
  - reflexivity.
  - reflexivity.
Defined.

Lemma chat_process_update_rejected_witness :
  let s := server [maths] [] in
  let r := post_chat_process update_down (ask 1 false) alice s in
  (∀ err', fst r ≠ Thrown err') ∧
  ended (snd r) = true ∧
  (∃ l c, body (snd r) = l ++ [c] ∧ terminal c) ∧
  last (console (snd r)) = Some (Some "write conflict") ∧
  usages (snd r) = usages s ∧
  (∀ k row, chats s !! k = Some row -> chats (snd r) !! k = Some row) ∧
  (∀ uid room cid mid us,
     CallInsertChatUsage uid room cid mid us ∉ trace (snd r)).
Proof.
  apply (chat_process_update_rejected update_down (ask 1 false) alice (server [maths] [])
           (Some 1%nat) (Some "2+2=4") (Some "m1") (Some "c1") (Some usage_A) None
           (Error (Some "write conflict"))).
  - reflexivity.
  - solve_mem.
Defined.

Lemma chat_process_success_persisted_witness :
  ∃ k row,
    chats after_A !! k = Some row ∧ c_id row = 1%nat ∧
    c_roomId row = 1%Z ∧ c_uuid row = 7%Z ∧
    c_response row = Some "2+2=4" ∧
    messageId (c_options row) = Some "m1" ∧
    conversationId (c_options row) = Some "c1" ∧
    prompt_tokens (c_options row) = Some 5%Z ∧
    completion_tokens (c_options row) = Some 3%Z ∧
    total_tokens (c_options row) = Some 8%Z.
Proof.
  apply (chat_process_success_persisted scenario_A (ask 1 false) alice
           (server [maths; terse; theirs] []) sent_A
           (mkResponse "Success" None (Some (answer "m1" "2+2=4" (Some usage_A))))
           (answer "m1" "2+2=4" (Some usage_A))).
  - solve_mem.
  - reflexivity.
  - reflexivity.
  - reflexivity.
  - reflexivity.
Defined.

Lemma chat_abort_update_rejected_witness :
  let s := server [maths] [turn_A] in
  let r := chat_abort update_down alice "2+" "m1" "c1" s in
  fst r = Val tt ∧
  body (snd r) = body s ++ [ChunkSend "Fail" "重置邮件已发送 | Reset email has been sent"] ∧
  ended (snd r) = true ∧
  chats (snd r) = chats s ∧ usages (snd r) = usages s ∧
  threads (snd r) = alter cancel alice (threads s).
Proof.
  apply (chat_abort_update_rejected update_down alice "2+" "m1" "c1"
           (server [maths] [turn_A]) (Error (Some "write conflict"))).
  reflexivity.
Defined.

Lemma history_unknown_room_witness :
  let s := server [maths; theirs] [turn_A] in
  chat_history scenario_A alice 9 (Returns [turn_A]) s
  = (Val (mkReply "Success" None (PList [])), s) ∧
  chat_response_history scenario_A alice 9 7 0 s
  = (Val (mkReply "Success" None (PList [])), s).
Proof.
  apply (history_unknown_room scenario_A alice 9 7 0 (Returns [turn_A])
           (server [maths; theirs] [turn_A])).
  right. split; reflexivity.
Defined.

Lemma chat_response_history_never_regenerated_witness :
  fst (chat_response_history scenario_A alice 1 7 0 (server [maths] [turn_A]))
  = Val (mkReply "Fail" (Some "Error") (PList [])).
Proof.
  apply (chat_response_history_never_regenerated scenario_A alice 1 7 0 maths turn_A
           (server [maths] [turn_A])).
  - discriminate.
  - reflexivity.
  - reflexivity.
  - reflexivity.
  - reflexivity.
  - reflexivity.
Defined.

Lemma chat_response_history_load_error_witness :
  fst (chat_response_history scenario_A alice 1 8 0 (server [maths] [turn_A]))
  = Val (mkReply "Fail" (Some "Load error") PNull).
Proof.
  apply (chat_response_history_load_error scenario_A alice 1 8 0 maths
           (server [maths] [turn_A])).
  - discriminate.
  - reflexivity.
  - reflexivity.
  - reflexivity.
  - left. reflexivity.
Defined.

Lemma chat_history_size_witness :
  ∃ items,
    fst (chat_history scenario_A alice 1 (Returns [turn_A; retracted])
           (server [maths] [turn_A; retracted]))
    = Val (mkReply "Success" None (PList items)) ∧
    items = flat_map turn_items [turn_A; retracted] ∧
    length items
    = (length (filter (fun c => c_status c ≠ InversionDeleted) [turn_A; retracted])
       + length (filter (fun c => c_status c ≠ ResponseDeleted) [turn_A; retracted]))%nat.
Proof.
  apply (chat_history_size scenario_A alice 1 maths (server [maths] [turn_A; retracted])
           (Returns [turn_A; retracted])).
  - discriminate.
  - reflexivity.
  - reflexivity.
Defined.


Lemma session_model_normalised_witness :
  ∃ c c2, Returns (front "gpt-4") = Returns c ∧ Returns (front "gpt-4") = Returns c2 ∧
    (apiModel c = "ChatGPTAPI" ∨ apiModel c = "ChatGPTUnofficialProxyAPI" ->
     "ChatGPTAPI" = apiModel c) ∧
    (apiModel c ≠ "ChatGPTAPI" -> apiModel c ≠ "ChatGPTUnofficialProxyAPI" ->
     "ChatGPTAPI" = "ChatGPTAPI") ∧
    ("ChatGPTAPI" = "ChatGPTAPI" ∨ "ChatGPTAPI" = "ChatGPTUnofficialProxyAPI") ∧
    true = loginEnabled c ∧ "Chat" = siteTitle c ∧ false = registerEnabled c2.
Proof.
  apply (session_model_normalised table (Returns (front "gpt-4")) (Returns (front "gpt-4"))
           (Returns None) (Returns None) (Returns pool)
           (mkSessionData true false "ChatGPTAPI" "Chat"
                          [mkModelOption "" "" "gpt-3.5-turbo"] table)).
  reflexivity.
Defined.

Lemma register_suffix_gate_witness :
  let d := office (Some "@site.org,@corp.com") false accepts in
  ((∀ element p, element ∈ split_comma "@site.org,@corp.com" ->
      toLowerCase d "eve@mail.com" ≠ String.append p element) ->
   user_register d "eve@mail.com" "pw" []
   = (Val (reply_fail "该邮箱后缀不支持 | The email service provider is not allowed"), [])) ∧
  ((∃ element p, element ∈ split_comma "@site.org,@corp.com" ∧
      toLowerCase d "eve@mail.com" = String.append p element) ->
   user_register d "eve@mail.com" "pw" []
   = user_register (without_suffix_list d) "eve@mail.com" "pw" []).
Proof.
  apply (register_suffix_gate (office (Some "@site.org,@corp.com") false accepts)
           "eve@mail.com" "pw" (mkSiteConfig true (Some "@site.org,@corp.com") false "salt")
           "@site.org,@corp.com" []).
  - reflexivity.
  - reflexivity.
  - reflexivity.
  - reflexivity.
  - discriminate.
Defined.

Lemma register_trailing_comma_witness :
  let d := office (Some "@corp.com,") false accepts in
  user_register d "eve@mail.com" "pw" []
  = user_register (without_suffix_list d) "eve@mail.com" "pw" [].
Proof.
  apply (register_trailing_comma (office (Some "@corp.com,") false accepts)
           "eve@mail.com" "pw" (mkSiteConfig true (Some "@corp.com,") false "salt")
           "@corp.com" []).
  - reflexivity.
  - reflexivity.
  - reflexivity.
  - reflexivity.
Defined.

Lemma register_creates_only_new_witness :
  let d := office None false accepts in
  "root@site.org" = "root@site.org" ∧ "md5(pw)" = md5 d "pw" ∧
  true = bool_decide (Some (toLowerCase d "root@site.org") = ROOT_USER d) ∧
  (∃ cfg, getSiteConfig d = Returns cfg ∧ sc_registerEnabled cfg = true) ∧
  isEmail d "root@site.org" = true ∧
  getUser d "root@site.org" = Returns None ∧
  (true = true ->
   snd (user_register d "root@site.org" "pw" [])
   = [DoCreateUser "root@site.org" "md5(pw)" true]).
Proof.
  apply (register_creates_only_new (office None false accepts) "root@site.org" "pw"
           "root@site.org" "md5(pw)" true).
  vm_compute. apply list_elem_of_here.
Defined.

Lemma login_token_only_for_normal_user_witness :
  let d := office None false accepts in
  ∃ u p user cfg,
    Some "ann@site.org" = Some u ∧ Some "secret" = Some p ∧ u ≠ "" ∧ p ≠ "" ∧
    isEmail d u = true ∧
    getUser d u = Returns (Some user) ∧
    ur_password user = md5 d p ∧
    ur_status user = Normal ∧
    getSiteConfig d = Returns cfg ∧
    jwt_sign d (payload user) (trim d (sc_loginSalt cfg)) = Returns "jwt:id-ann" ∧
    (tp_root (payload user) = true ↔ Admin ∈ ur_roles user) ∧
    "Success" = "Success" ∧
    snd (user_login d (Some "ann@site.org") (Some "secret") []) = [].
Proof.
  apply (login_token_only_for_normal_user (office None false accepts)
           (Some "ann@site.org") (Some "secret") []
           (mkAccountReply "Success" (Some "登录成功 | Login successfully")
                           (Some "jwt:id-ann"))
           "jwt:id-ann").
  - reflexivity.
  - reflexivity.
Defined.

Lemma login_hides_unknown_user_witness :
  user_login (office None false accepts) (Some "eve@mail.com") (Some "guess") []
  = (Val (reply_fail "用户不存在或密码错误 | User does not exist or incorrect password."), []).
Proof.
  apply (login_hides_unknown_user (office None false accepts) "eve@mail.com" "guess" []).
  - discriminate.
  - discriminate.
  - reflexivity.
  - left. reflexivity.
Defined.

Lemma reset_password_only_when_signed_witness :
  let d := office None false accepts in
  ∃ u p sg user,
    Some "ann@site.org" = Some u ∧ Some "fresh" = Some p ∧
    Some "sign:ann@site.org" = Some sg ∧
    isEmail d u = true ∧
    checkUserResetPassword d sg u = true ∧
    getUser d u = Returns (Some user) ∧ ur_status user = Normal ∧
    "id-ann" = ur_id user ∧ "md5(fresh)" = md5 d p.
Proof.
  apply (reset_password_only_when_signed (office None false accepts)
           (Some "ann@site.org") (Some "fresh") (Some "sign:ann@site.org")
           "id-ann" "md5(fresh)").
  vm_compute. apply list_elem_of_here.
Defined.

Lemma reset_password_reports_success_regardless_witness :
  let d := office None false read_only in
  let r := user_reset_password d (Some "ann@site.org") (Some "fresh")
                               (Some "sign:ann@site.org") [] in
  fst r = Val (reply_success "密码重置成功 | Password reset successful") ∧
  snd r = match rejects d (DoUpdateUserPassword (ur_id ann) (md5 d "fresh")) with
          | Some _ => []
          | None => [] ++ [DoUpdateUserPassword (ur_id ann) (md5 d "fresh")]
          end.
Proof.
  apply (reset_password_reports_success_regardless (office None false read_only)
           "ann@site.org" "fresh" "sign:ann@site.org" ann []).
  - discriminate.
  - discriminate.
  - discriminate.
  - reflexivity.
  - reflexivity.
  - reflexivity.
  - reflexivity.
Defined.

Lemma user_status_notice_witness :
  let d := office None false accepts in
  ∃ user,
    getUserRowById d "id-bob" = Returns (Some user) ∧ "bob@site.org" = ur_email user ∧
    Normal = Normal ∧
    (ur_status user = PreVerify ∨ ur_status user = AdminVerify) ∧
    snd (user_status d "id-bob" Normal [])
    = [DoUpdateUserStatus "id-bob" Normal; DoSendNoticeMail "bob@site.org"].
Proof.
  apply (user_status_notice (office None false accepts) "id-bob" Normal "bob@site.org").
  vm_compute. apply list_elem_of_further, list_elem_of_here.
Defined.

Lemma user_status_unknown_user_witness :
  let r := user_status (office None false accepts) "id-zed" Disabled [] in
  (∃ reply, fst r = Val reply ∧ ar_status reply = "Fail" ∧
            ar_message reply = error_message (TypeError "null (reading 'status')")) ∧
  snd r = [DoUpdateUserStatus "id-zed" Disabled].
Proof.
  apply (user_status_unknown_user (office None false accepts) "id-zed" Disabled).
  - reflexivity.
  - reflexivity.
Defined.

Lemma verify_status_witness :
  let d := office None true accepts in
  ∃ tk cfg,
    Some "tk-bob" = Some tk ∧ tk ≠ "" ∧
    checkUserVerify d tk = Returns "bob@site.org" ∧
    (∀ user, getUser d "bob@site.org" = Returns (Some user) -> ur_status user ≠ Normal) ∧
    getSiteConfig d = Returns cfg ∧
    AdminVerify = (if sc_registerReview cfg then AdminVerify else Normal) ∧
    (∀ to email url,
       DoSendVerifyMailAdmin to email url ∈ snd (verify d (Some "tk-bob") []) ->
       sc_registerReview cfg = true ∧ to = ROOT_USER d ∧ email = "bob@site.org").
Proof.
  apply (verify_status (office None true accepts) (Some "tk-bob") "bob@site.org"
           AdminVerify).
  vm_compute. apply list_elem_of_here.
Defined.

Lemma delete_unknown_room_witness :
  let s := server [maths; theirs] [turn_A] in
  let wipe := modify (set_chats (fun _ => [])) in
  let refused := (Val (mkAck "Fail" (Some "Unknow room") true), s) in
  room_delete scenario_A (fun _ _ => wipe) alice 9 s = refused ∧
  chat_delete scenario_A (fun _ _ _ => wipe) alice 9 7 false s = refused ∧
  chat_clear scenario_A (fun _ => wipe) alice 9 s = refused.
Proof.
  apply (delete_unknown_room scenario_A alice 9 7 false
           (fun _ _ => modify (set_chats (fun _ => [])))
           (fun _ _ _ => modify (set_chats (fun _ => [])))
           (fun _ => modify (set_chats (fun _ => [])))
           (server [maths; theirs] [turn_A])).
  right. split; reflexivity.
Defined.

Lemma delete_lookup_rejected_witness :
  let s := server [maths] [turn_A] in
  let wipe := modify (set_chats (fun _ => [])) in
  let failed := (Val (mkAck "Fail" (Some "Delete error") true),
                 set_console (fun c => c ++ [Some "connection closed"]) s) in
  room_delete store_down (fun _ _ => wipe) alice 1 s = failed ∧
  chat_delete store_down (fun _ _ _ => wipe) alice 1 7 false s = failed ∧
  chat_clear store_down (fun _ => wipe) alice 1 s = failed.
Proof.
  apply (delete_lookup_rejected store_down alice 1 7 false
           (fun _ _ => modify (set_chats (fun _ => [])))
           (fun _ _ _ => modify (set_chats (fun _ => [])))
           (fun _ => modify (set_chats (fun _ => [])))
           (server [maths] [turn_A]) (Error (Some "connection closed"))).
  - discriminate.
  - reflexivity.
Defined.

Lemma reset_mail_only_to_normal_user_witness :
  let d := office None false accepts in
  ∃ user,
    Some "ann@site.org" = Some "ann@site.org" ∧ "ann@site.org" ≠ "" ∧
    isEmail d "ann@site.org" = true ∧
    getUser d "ann@site.org" = Returns (Some user) ∧ ur_status user = Normal ∧
    getUserResetPasswordUrl d "ann@site.org" = Returns "/reset?ann@site.org" ∧
    snd (user_send_reset_mail d (Some "ann@site.org") [])
    = [DoSendResetPasswordMail "ann@site.org" "/reset?ann@site.org"].
Proof.
  apply (reset_mail_only_to_normal_user (office None false accepts)
           (Some "ann@site.org") "ann@site.org" "/reset?ann@site.org").
  vm_compute. apply list_elem_of_here.
Defined.

Lemma verifyadmin_activates_witness :
  let d := office None true accepts in
  ∃ tk,
    Some "admin-tk-bob" = Some tk ∧ tk ≠ "" ∧
    checkUserVerifyAdmin d tk = Returns "bob@site.org" ∧
    (∀ user, getUser d "bob@site.org" = Returns (Some user) -> ur_status user ≠ Normal) ∧
    snd (verifyadmin d (Some "admin-tk-bob") [])
    = [DoVerifyUser "bob@site.org" Normal; DoSendNoticeMail "bob@site.org"].
Proof.
  apply (verifyadmin_activates (office None true accepts) (Some "admin-tk-bob")
           "bob@site.org").
  vm_compute. apply list_elem_of_further, list_elem_of_here.
Defined.
